(** * mmpose/core/visualization/image.py

    A shallow embedding of the three renderers [imshow_bboxes],
    [imshow_keypoints] and [imshow_keypoints_3d], and the properties of
    their gating rules (score threshold, image bounds, length
    assertions, panel layout).

    Numbers.  Scores and coordinates are numpy floats in the source.  They
    are embedded as rationals: every finite float is a rational, and the
    comparisons [>], [>=] and the truncation [int(.)] of finite floats
    agree with the same operations on the rationals they denote.  NaN and
    infinities are outside the model.  Sums and products of floats are
    embedded as exact rational arithmetic.

    Drawing.  The rasterisers of cv2 and mmcv are black boxes that turn a
    buffer into a buffer; they are the fields of a [Backend].  Every call
    to one of them is also recorded, with its arguments, in the [calls]
    log of the canvas, so that "is drawn" and "is not drawn" can be
    stated. *)

From Stdlib Require Import String.
From Stdlib Require Import List ZArith QArith Qround Bool Lia.
Import ListNotations.

Set Implicit Arguments.

(** ** Exceptions and results *)

Inductive exn : Set :=
| AssertionError
| IndexError
| ZeroDivisionError
| ValueError.

Inductive result (A : Type) : Type :=
| Ok (a : A)
| Raise (e : exn).

Arguments Ok {A} a.
Arguments Raise {A} e.

Definition bind {A B : Type} (m : result A) (k : A -> result B) : result B :=
  match m with
  | Ok a => k a
  | Raise e => Raise e
  end.

Notation "x <- m ;; k" := (bind m (fun x => k))
  (at level 61, m at next level, right associativity).

(** [assert c] *)
Definition py_assert (c : bool) : result unit :=
  if c then Ok tt else Raise AssertionError.

(** [for i, a in enumerate(l): st = body(st, i, a)], counting from [i]. *)
Fixpoint for_enumerate {A St : Type} (body : St -> nat -> A -> result St)
         (i : nat) (l : list A) (st : St) : result St :=
  match l with
  | [] => Ok st
  | a :: l' => st' <- body st i a ;; for_enumerate body (S i) l' st'
  end.

(** [for a in l: st = body(st, a)] *)
Fixpoint for_each {A St : Type} (body : St -> A -> result St)
         (l : list A) (st : St) : result St :=
  match l with
  | [] => Ok st
  | a :: l' => st' <- body st a ;; for_each body l' st'
  end.

(** ** Python and numpy arithmetic *)

(** [a < b] on finite floats. *)
Definition Qltb (a b : Q) : bool := negb (Qle_bool b a).

(** [int(x)]: truncation toward zero. *)
Definition py_int (x : Q) : Z := Z.quot (Qnum x) (Zpos (Qden x)).

(** Python's [min(a, b)] keeps [a] unless [b] is strictly smaller, and
    [max(a, b)] keeps [a] unless [b] is strictly larger. *)
Definition py_min (a b : Q) : Q := if Qltb b a then b else a.
Definition py_max (a b : Q) : Q := if Qltb a b then b else a.

(** [max(0, v)] on ints. *)
Definition py_max_int (a b : Z) : Z := if (a <? b)%Z then b else a.

(** [np.mean] of a one-dimensional array. *)
Definition np_mean (l : list Q) : Q :=
  (fold_left Qplus l 0 / inject_Z (Z.of_nat (length l)))%Q.

(** [a[i]] for an integer index on the first axis: a negative index counts
    from the end, anything outside [-len, len) raises IndexError. *)
Definition np_index {A : Type} (a : list A) (i : Z) : result A :=
  let n := Z.of_nat (length a) in
  let j := if (i <? 0)%Z then (i + n)%Z else i in
  if ((0 <=? j) && (j <? n))%Z then
    match nth_error a (Z.to_nat j) with
    | Some v => Ok v
    | None => Raise IndexError
    end
  else Raise IndexError.

(** [a[i]] for [i] produced by [enumerate]. *)
Definition py_getitem {A : Type} (a : list A) (i : nat) : result A :=
  match nth_error a i with
  | Some v => Ok v
  | None => Raise IndexError
  end.

(** [a[mask]] for a boolean mask of the length of [a]. *)
Fixpoint np_mask {A : Type} (a : list A) (mask : list bool) : list A :=
  match a, mask with
  | v :: a', b :: mask' =>
      if b then v :: np_mask a' mask' else np_mask a' mask'
  | _, _ => []
  end.

(** The builtin [sum] of a boolean array. *)
Definition py_sum (mask : list bool) : Z :=
  fold_left (fun acc (b : bool) => if b then (acc + 1)%Z else acc) mask 0%Z.

(** [np.split(ary, sections, axis=0)] for an integer [sections]
    (numpy/lib/shape_base.py): [split] first evaluates [N % sections],
    which is Python's integer modulo and raises ZeroDivisionError for
    [sections == 0]; a remainder raises ValueError; otherwise the array is
    cut into [sections] sub-arrays of [N / sections] rows each. *)
Definition np_split {A : Type} (ary : list A) (sections : nat)
  : result (list (list A)) :=
  let N := length ary in
  match sections with
  | O => Raise ZeroDivisionError
  | S _ =>
      if negb (Nat.eqb (N mod sections) 0) then Raise ValueError
      else
        let each_section := (N / sections)%nat in
        Ok (map (fun i => firstn each_section (skipn (i * each_section) ary))
                (seq 0 sections))
  end.

(** [zip] of three lists. *)
Fixpoint zip3 {A B C : Type} (a : list A) (b : list B) (c : list C)
  : list (A * B * C) :=
  match a, b, c with
  | x :: a', y :: b', z :: c' => (x, y, z) :: zip3 a' b' c'
  | _, _, _ => []
  end.

(** ** Buffers and drawing calls *)

Definition point : Set := (Z * Z)%type.
Definition color : Set := (Z * Z * Z)%type.

(** An image buffer: an [img_h] x [img_w] x 3 array of uint8, flattened. *)
Record image : Set := mkImage {
  img_h : Z;
  img_w : Z;
  data : list Z
}.

(** Which buffer a call draws into: the image itself or [img.copy()]. *)
Inductive target : Set := Img | ImgCopy.

Inductive cv_call : Set :=
| Circle (dst : target) (center : point) (radius : Z) (c : color)
| Line (pt1 pt2 : point) (c : color) (thickness : Z)
| FillConvexPoly (polygon : list point) (c : color)
| AddWeighted (alpha beta gamma : Q)
| ImshowBboxes (nboxes : nat) (colors : list color) (thickness : Z)
| Rectangle (pt1 pt2 : point) (c : color)
| PutText (label : string) (org : point) (c : color) (thickness : Z)
| Imshow (win_name : string) (wait_time : Z)
| Imwrite (out_file : string).

Record canvas : Set := mkCanvas {
  buf : image;
  calls : list cv_call
}.

(** [saturate_cast<uchar>] and [cvRound] (round half to even). *)
Definition saturate_u8 (v : Z) : Z := Z.max 0 (Z.min 255 v).

Definition cvRound (q : Q) : Z :=
  let f := Qfloor q in
  match (q - inject_Z f ?= 1 # 2)%Q with
  | Lt => f
  | Gt => (f + 1)%Z
  | Eq => if Z.even f then f else (f + 1)%Z
  end.

Fixpoint map2 {A B C : Type} (f : A -> B -> C) (a : list A) (b : list B)
  : list C :=
  match a, b with
  | x :: a', y :: b' => f x y :: map2 f a' b'
  | _, _ => []
  end.

(** [cv2.addWeighted(src1, alpha, src2, beta, gamma)]:
    [dst = saturate(src1*alpha + src2*beta + gamma)], element by element. *)
Definition addWeighted (src1 : image) (alpha : Q) (src2 : image)
           (beta gamma : Q) : image :=
  {| img_h := img_h src1;
     img_w := img_w src1;
     data := map2 (fun a b =>
                     saturate_u8
                       (cvRound (inject_Z a * alpha + inject_Z b * beta + gamma)%Q))
                  (data src1) (data src2) |}.

Definition uint8 (v : Z) : Prop := (0 <= v <= 255)%Z.

(** ** Inputs *)

(** A row of a Kx3 pose array: x, y, score. *)
Record keypoint : Set := mkKpt {
  kx : Q;
  ky : Q;
  kscore : Q
}.

(** A row of a Kx4 array: x, y, z, score. *)
Record keypoint3d : Set := mkKpt3d {
  x3 : Q;
  y3 : Q;
  z3 : Q;
  score3 : Q
}.

(** A row of a (k, 4) array of boxes. *)
Record bbox : Set := mkBbox {
  bx1 : Q;
  by1 : Q;
  bx2 : Q;
  by2 : Q
}.

(** [colors] and [labels] are one value, broadcast, or a list. *)
Inductive one_or_list (A : Type) : Type :=
| One (a : A)
| Many (l : list A).

Arguments One {A} a.
Arguments Many {A} l.

(** The drawing library: cv2 and mmcv primitives the module calls, as
    functions on buffers.  They stand for calls that cv2 accepts; the
    conditions under which it does are [circle_accepted] and
    [limbs_accepted] below. *)
Record Backend : Type := mkBackend {
  color_spec : Type;
  color_val : color_spec -> color;
  circle : image -> point -> Z -> color -> image;
  line : image -> point -> point -> color -> Z -> image;
  fillConvexPoly : image -> list point -> color -> image;
  (** the polygon of a weighted limb: mean, length, angle and
      [cv2.ellipse2Poly] of the two end points *)
  limb_polygon : point -> point -> list point;
  mmcv_imshow_bboxes : image -> list (list bbox) -> list color -> Z -> image;
  (** [cv2.getTextSize(label, FONT_HERSHEY_DUPLEX, font_scale, thickness)]:
      ((width, height), baseline) *)
  getTextSize : string -> Q -> Z -> (Z * Z) * Z;
  rectangle_filled : image -> point -> point -> color -> image;
  putText : image -> string -> point -> Q -> color -> Z -> image
}.

Definition log (st : canvas) (b : image) (cs : list cv_call) : canvas :=
  {| buf := b; calls := calls st ++ cs |}.

Section Renderers.

Variable cv : Backend.

(** ** imshow_bboxes *)

(** The body of the label loop, lines 62-76. *)
Definition draw_label (text_color : color_spec cv) (thickness : Z)
           (font_scale : Q) (st : canvas)
           (item : list bbox * string * color) : result canvas :=
  let '(box, label, c) := item in
  row <- np_index box 0 ;;
  let bbox_int := (py_int (bx1 row), py_int (by1 row)) in
  let '(text_size, text_baseline) :=
    getTextSize cv label font_scale thickness in
  let text_x1 := fst bbox_int in
  let text_y1 :=
    py_max_int 0 (snd bbox_int - snd text_size - text_baseline) in
  let text_x2 := (fst bbox_int + fst text_size)%Z in
  let text_y2 := (text_y1 + snd text_size + text_baseline)%Z in
  let img1 :=
    rectangle_filled cv (buf st) (text_x1, text_y1) (text_x2, text_y2) c in
  let org := (text_x1, (text_y2 - text_baseline)%Z) in
  let img2 :=
    putText cv img1 label org font_scale (color_val cv text_color) thickness in
  Ok (log st img2
          [Rectangle (text_x1, text_y1) (text_x2, text_y2) c;
           PutText label org (color_val cv text_color) thickness]).

Definition imshow_bboxes (img : image) (bboxes : list bbox)
           (labels : option (one_or_list string))
           (colors : one_or_list (color_spec cv))
           (text_color : color_spec cv) (thickness : Z) (font_scale : Q)
           (show : bool) (win_name : string) (wait_time : Z)
           (out_file : option string) : result canvas :=
  bboxes <- np_split bboxes (length bboxes) ;;
  let colors :=
    match colors with
    | Many l => l
    | One c => map (fun _ => c) (seq 0 (length bboxes))
    end in
  let colors := map (color_val cv) colors in
  _ <- py_assert (Nat.eqb (length bboxes) (length colors)) ;;
  let st :=
    {| buf := mmcv_imshow_bboxes cv img bboxes colors thickness;
       calls := [ImshowBboxes (length bboxes) colors thickness] |} in
  st <- match labels with
        | None => Ok st
        | Some labels =>
            let labels :=
              match labels with
              | Many l => l
              | One s => map (fun _ => s) (seq 0 (length bboxes))
              end in
            _ <- py_assert (Nat.eqb (length labels) (length bboxes)) ;;
            for_each (draw_label text_color thickness font_scale)
                     (zip3 bboxes labels colors) st
        end ;;
  let st := if show then log st (buf st) [Imshow win_name wait_time] else st in
  let st :=
    match out_file with
    | Some f => log st (buf st) [Imwrite f]
    | None => st
    end in
  Ok st.

(** ** imshow_keypoints *)

Section Keypoints2D.

Variables (img_h0 img_w0 : Z).
Variable kpt_score_thr : Q.
Variables (radius thickness : Z).
Variable show_keypoint_weight : bool.

(** The body of the keypoint loop, lines 119-137. *)
Definition draw_kpt (pose_kpt_color : list color) (st : canvas)
           (kid : nat) (kpt : keypoint) : result canvas :=
  let x_coord := py_int (kx kpt) in
  let y_coord := py_int (ky kpt) in
  let kpt_score := kscore kpt in
  if Qltb kpt_score_thr kpt_score then
    if show_keypoint_weight then
      let img_copy := buf st in
      rgb <- py_getitem pose_kpt_color kid ;;
      let img_copy := circle cv img_copy (x_coord, y_coord) radius rgb in
      let transparency := py_max 0%Q (py_min 1%Q kpt_score) in
      Ok (log st
              (addWeighted img_copy transparency (buf st)
                           (1 - transparency)%Q 0%Q)
              [Circle ImgCopy (x_coord, y_coord) radius rgb;
               AddWeighted transparency (1 - transparency)%Q 0%Q])
    else
      rgb <- py_getitem pose_kpt_color kid ;;
      Ok (log st (circle cv (buf st) (x_coord, y_coord) radius rgb)
              [Circle Img (x_coord, y_coord) radius rgb])
  else Ok st.

(** [0 < p[0] < img_w and 0 < p[1] < img_h] *)
Definition inside (p : point) : bool :=
  ((0 <? fst p) && (fst p <? img_w0) && (0 <? snd p) && (snd p <? img_h0))%Z.

(** The body of the limb loop, lines 143-184. *)
Definition draw_limb (kpts : list keypoint) (pose_limb_color : list color)
           (st : canvas) (sk_id : nat) (sk : Z * Z) : result canvas :=
  k1 <- np_index kpts (fst sk - 1) ;;
  let pos1 := (py_int (kx k1), py_int (ky k1)) in
  k2 <- np_index kpts (snd sk - 1) ;;
  let pos2 := (py_int (kx k2), py_int (ky k2)) in
  if inside pos1 && inside pos2
     && Qltb kpt_score_thr (kscore k1) && Qltb kpt_score_thr (kscore k2)
  then
    rgb <- py_getitem pose_limb_color sk_id ;;
    if show_keypoint_weight then
      let img_copy := buf st in
      let polygon := limb_polygon cv pos1 pos2 in
      let img_copy := fillConvexPoly cv img_copy polygon rgb in
      let transparency :=
        py_max 0%Q (py_min 1%Q ((1 # 2) * (kscore k1 + kscore k2))%Q) in
      Ok (log st
              (addWeighted img_copy transparency (buf st)
                           (1 - transparency)%Q 0%Q)
              [FillConvexPoly polygon rgb;
               AddWeighted transparency (1 - transparency)%Q 0%Q])
    else
      Ok (log st (line cv (buf st) pos1 pos2 rgb thickness)
              [Line pos1 pos2 rgb thickness])
  else Ok st.

(** The body of [for kpts in pose_result], lines 115-184. *)
Definition draw_pose (skeleton : option (list (Z * Z)))
           (pose_kpt_color pose_limb_color : option (list color))
           (st : canvas) (kpts : list keypoint) : result canvas :=
  st <- match pose_kpt_color with
        | Some kc =>
            _ <- py_assert (Nat.eqb (length kc) (length kpts)) ;;
            for_enumerate (draw_kpt kc) 0 kpts st
        | None => Ok st
        end ;;
  match skeleton, pose_limb_color with
  | Some skel, Some lc =>
      _ <- py_assert (Nat.eqb (length lc) (length skel)) ;;
      for_enumerate (draw_limb kpts lc) 0 skel st
  | _, _ => Ok st
  end.

End Keypoints2D.

Definition imshow_keypoints (img : image) (pose_result : list (list keypoint))
           (skeleton : option (list (Z * Z))) (kpt_score_thr : Q)
           (pose_kpt_color pose_limb_color : option (list color))
           (radius thickness : Z) (show_keypoint_weight : bool)
  : result canvas :=
  for_each (draw_pose (img_h img) (img_w img) kpt_score_thr radius thickness
                      show_keypoint_weight skeleton pose_kpt_color
                      pose_limb_color)
           pose_result {| buf := img; calls := [] |}.

End Renderers.

(** ** imshow_keypoints_3d *)

(** A pose record: the dict with "keypoints_3d" and the optional "title". *)
Record pose3d : Set := mkPose3d {
  keypoints_3d : list keypoint3d;
  title : option string
}.

(** A matplotlib colour, RGB in [0, 1]. *)
Definition rgb01 : Set := (Q * Q * Q)%type.

(** [c[..., ::-1] / 255.] *)
Definition to_rgb01 (c : color) : rgb01 :=
  let '(c0, c1, c2) := c in
  (inject_Z c2 / 255, inject_Z c1 / 255, inject_Z c0 / 255)%Q.

(** One [ax.plot(xs_3d, ys_3d, zs_3d, color=_color, zdir='z')]. *)
Record line3d : Set := mkLine3d {
  xs_3d : Q * Q;
  ys_3d : Q * Q;
  zs_3d : Q * Q;
  line_color : rgb01
}.

(** A 3D subplot and what was drawn on it. *)
Record axes3d : Set := mkAxes3d {
  ax_idx : nat;
  elev : Q;
  azim : Q;
  xlim3d : Q * Q;
  ylim3d : Q * Q;
  zlim3d : Q * Q;
  dist : Q;
  scatter : option (list (Q * Q * Q * rgb01));
  plots : list line3d;
  ax_title : option string
}.

Inductive panel : Set :=
| InputPanel (idx : nat)
| PosePanel (ax : axes3d).

(** The figure before it is rasterised. *)
Record figure : Set := mkFigure {
  figsize : Q * Q;
  ncols : nat;
  panels : list panel
}.

Definition is_some {A : Type} (o : option A) : bool :=
  match o with Some _ => true | None => false end.

(** Lines 236-237. *)
Definition num_axis (pose_result : list pose3d) (img : option image) : nat :=
  let show_img := is_some img in
  (if show_img then length pose_result + 1 else length pose_result)%nat.

(** [valid = kpts[:, 3] >= kpt_score_thr] *)
Definition valid_mask (kpts : list keypoint3d) (kpt_score_thr : Q)
  : list bool :=
  map (fun k => Qle_bool kpt_score_thr (score3 k)) kpts.

(** Lines 264-265: [(x_c, y_c)]. *)
Definition center (kpts : list keypoint3d) (kpt_score_thr : Q) : Q * Q :=
  let valid := valid_mask kpts kpt_score_thr in
  let x_c :=
    if (0 <? py_sum valid)%Z then np_mean (np_mask (map x3 kpts) valid)
    else 0%Q in
  let y_c :=
    if (0 <? py_sum valid)%Z then np_mean (np_mask (map y3 kpts) valid)
    else 0%Q in
  (x_c, y_c).

(** Lines 281-290: the points handed to [ax.scatter]. *)
Definition scatter_points (kpts : list keypoint3d) (pose_kpt_color : list color)
           (valid : list bool) : list (Q * Q * Q * rgb01) :=
  let _color := map to_rgb01 pose_kpt_color in
  map (fun kc : keypoint3d * rgb01 =>
         (x3 (fst kc), y3 (fst kc), z3 (fst kc), snd kc))
      (np_mask (combine kpts _color) valid).

(** The body of the limb loop, lines 296-304: [Some] line when one is
    plotted. *)
Definition plot_limb (kpts : list keypoint3d) (kpt_score_thr : Q)
           (limb : Z * Z) (limb_color : color) : result (option line3d) :=
  let limb_indices := (fst limb - 1, snd limb - 1)%Z in
  k1 <- np_index kpts (fst limb_indices) ;;
  k2 <- np_index kpts (snd limb_indices) ;;
  let kpt_score_min := py_min (score3 k1) (score3 k2) in
  if Qltb kpt_score_thr kpt_score_min then
    Ok (Some {| xs_3d := (x3 k1, x3 k2);
                ys_3d := (y3 k1, y3 k2);
                zs_3d := (z3 k1, z3 k2);
                line_color := to_rgb01 limb_color |})
  else Ok None.

Fixpoint plot_limbs (kpts : list keypoint3d) (kpt_score_thr : Q)
         (limbs : list ((Z * Z) * color)) : result (list line3d) :=
  match limbs with
  | [] => Ok []
  | (limb, limb_color) :: rest =>
      l <- plot_limb kpts kpt_score_thr limb limb_color ;;
      ls <- plot_limbs kpts kpt_score_thr rest ;;
      Ok (match l with Some ln => ln :: ls | None => ls end)
  end.

Section Keypoints3D.

Variable show_img : bool.
Variable skeleton : option (list (Z * Z)).
Variables (pose_kpt_color pose_limb_color : option (list color)).
Variable kpt_score_thr : Q.
Variables (axis_azimuth axis_limit axis_dist axis_elev : Q).

(** The body of [for idx, res in enumerate(pose_result)], lines 255-307. *)
Definition draw_pose3d (fig : list panel) (idx : nat) (res : pose3d)
  : result (list panel) :=
  let kpts := keypoints_3d res in
  let valid := valid_mask kpts kpt_score_thr in
  let ax_idx := (if show_img then idx + 2 else idx + 1)%nat in
  let '(x_c, y_c) := center kpts kpt_score_thr in
  sc <- match pose_kpt_color with
        | Some kc =>
            _ <- py_assert (Nat.eqb (length kc) (length kpts)) ;;
            Ok (Some (scatter_points kpts kc valid))
        | None => Ok None
        end ;;
  ls <- match skeleton, pose_limb_color with
        | Some skel, Some lc =>
            _ <- py_assert (Nat.eqb (length lc) (length skel)) ;;
            plot_limbs kpts kpt_score_thr (combine skel lc)
        | _, _ => Ok []
        end ;;
  Ok (fig ++
      [PosePanel
         {| ax_idx := ax_idx;
            elev := axis_elev;
            azim := axis_azimuth;
            xlim3d := (x_c - axis_limit / 2, x_c + axis_limit / 2)%Q;
            ylim3d := (y_c - axis_limit / 2, y_c + axis_limit / 2)%Q;
            zlim3d := (0, axis_limit)%Q;
            dist := axis_dist;
            scatter := sc;
            plots := ls;
            ax_title := title res |}]).

End Keypoints3D.

(** Lines 236-307: the figure as it is built, panel by panel.  The
    rasterisation of the figure (lines 309-319) belongs to matplotlib and
    is not part of the embedding: [Ok fig] says that the figure was built
    and handed over, [Raise e] that building it raised [e]. *)
Definition imshow_keypoints_3d (pose_result : list pose3d)
           (img : option image) (skeleton : option (list (Z * Z)))
           (pose_kpt_color pose_limb_color : option (list color))
           (vis_height : Z) (kpt_score_thr : Q)
           (axis_azimuth axis_limit axis_dist axis_elev : Q) : result figure :=
  let show_img := is_some img in
  let num_axis := num_axis pose_result img in
  let size :=
    (inject_Z vis_height * inject_Z (Z.of_nat num_axis) * (1 # 100),
     inject_Z vis_height * (1 # 100))%Q in
  let fig := if show_img then [InputPanel 1] else [] in
  ps <- for_enumerate
          (draw_pose3d show_img skeleton pose_kpt_color pose_limb_color
                       kpt_score_thr axis_azimuth axis_limit axis_dist
                       axis_elev)
          0 pose_result fig ;;
  Ok {| figsize := size; ncols := num_axis; panels := ps |}.

(** ** A small concrete backend for worked examples

    Colours are BGR triples; every primitive paints single pixels. *)

Fixpoint set_nth (n : nat) (v : Z) (l : list Z) : list Z :=
  match l, n with
  | [], _ => []
  | _ :: l', O => v :: l'
  | a :: l', S n' => a :: set_nth n' v l'
  end.

Definition put_pixel (img : image) (p : point) (c : color) : image :=
  let '(x, y) := p in
  let '(c0, c1, c2) := c in
  if ((0 <=? x) && (x <? img_w img) && (0 <=? y) && (y <? img_h img))%Z then
    let o := Z.to_nat (3 * (y * img_w img + x)) in
    {| img_h := img_h img;
       img_w := img_w img;
       data := set_nth (o + 2) (saturate_u8 c2)
                 (set_nth (o + 1) (saturate_u8 c1)
                    (set_nth o (saturate_u8 c0) (data img))) |}
  else img.

Definition pixel_backend : Backend :=
  {| color_spec := color;
     color_val := fun c => c;
     circle := fun img center _ c => put_pixel img center c;
     line := fun img pt1 pt2 c _ => put_pixel (put_pixel img pt1 c) pt2 c;
     fillConvexPoly :=
       fun img polygon c => fold_left (fun i p => put_pixel i p c) polygon img;
     limb_polygon := fun pt1 pt2 => [pt1; pt2];
     mmcv_imshow_bboxes := fun img _ _ _ => img;
     getTextSize :=
       fun label _ _ => ((8 * Z.of_nat (String.length label), 10), 3)%Z;
     rectangle_filled :=
       fun img pt1 pt2 c => put_pixel (put_pixel img pt1 c) pt2 c;
     putText := fun img _ _ _ _ _ => img |}.

(** A black image of [h] rows and [w] columns. *)
Definition black (h w : nat) : image :=
  {| img_h := Z.of_nat h;
     img_w := Z.of_nat w;
     data := repeat 0%Z (3 * h * w) |}.

Definition blank (img : image) : canvas := {| buf := img; calls := [] |}.

(** ** Vocabulary of the statements *)

(** A 1-based joint index that [i - 1] resolves in a pose of [K] keypoints:
    [-K <= i - 1 < K]. *)
Definition joint_in_range (K : nat) (i : Z) : Prop :=
  (1 - Z.of_nat K <= i <= Z.of_nat K)%Z.

(** The centre and colour of the circle of every keypoint of a pose whose
    score exceeds the threshold, in keypoint order. *)
Definition visible_circles (kpt_score_thr : Q) (pose_kpt_color : list color)
           (kpts : list keypoint) : list (point * color) :=
  map (fun p : keypoint * color =>
         ((py_int (kx (fst p)), py_int (ky (fst p))), snd p))
      (filter (fun p : keypoint * color => Qltb kpt_score_thr (kscore (fst p)))
              (combine kpts pose_kpt_color)).

(** What a call of [imshow_keypoints] may record, by mode: in place, only
    circles on the image and lines between points inside the image; in
    weighted mode, only shapes on a copy and blends whose weights are
    [t] and [1 - t] with [0 <= t <= 1]. *)
Definition keypoint_call_ok (img_h0 img_w0 : Z) (w : bool) (c : cv_call)
  : Prop :=
  match c with
  | Circle dst _ _ _ => dst = if w then ImgCopy else Img
  | Line pt1 pt2 _ _ =>
      w = false /\ inside img_h0 img_w0 pt1 = true
      /\ inside img_h0 img_w0 pt2 = true
  | FillConvexPoly _ _ => w = true
  | AddWeighted alpha beta gamma =>
      w = true /\ (0 <= alpha)%Q /\ (alpha <= 1)%Q
      /\ beta = (1 - alpha)%Q /\ gamma = 0%Q
  | _ => False
  end.

(** The labels of the [cv2.putText] calls of a log, in order. *)
Definition put_text_labels (cs : list cv_call) : list string :=
  flat_map (fun c => match c with PutText label _ _ _ => [label] | _ => [] end)
           cs.

(** The third argument of the [add_subplot] call that made a panel. *)
Definition panel_idx (p : panel) : nat :=
  match p with
  | InputPanel idx => idx
  | PosePanel ax => ax_idx ax
  end.

(** What the label loop of [imshow_bboxes] may record: filled tags that
    start at or below the top edge of the image, and texts. *)
Definition label_call_ok (c : cv_call) : Prop :=
  match c with
  | Rectangle pt1 _ _ => (0 <= snd pt1)%Z
  | PutText _ _ _ _ => True
  | _ => False
  end.

(** The calls that end [imshow_bboxes]: the display, then the file write,
    each only when asked for. *)
Definition output_calls (show : bool) (win_name : string) (wait_time : Z)
           (out_file : option string) : list cv_call :=
  (if show then [Imshow win_name wait_time] else [])
  ++ match out_file with Some f => [Imwrite f] | None => [] end.

(** The 3D panel of the pose record [res] met at position [idx] of
    [pose_result]: its slot in the figure, the shared view, the cube
    around the pose's centre, the scattered points and the title. *)
Definition panel_of_pose (show_img : bool) (pose_kpt_color : option (list color))
           (kpt_score_thr axis_azimuth axis_limit axis_dist axis_elev : Q)
           (idx : nat) (res : pose3d) (ax : axes3d) : Prop :=
  let kpts := keypoints_3d res in
  let x_c := fst (center kpts kpt_score_thr) in
  let y_c := snd (center kpts kpt_score_thr) in
  ax_idx ax = (if show_img then idx + 2 else idx + 1)%nat
  /\ elev ax = axis_elev /\ azim ax = axis_azimuth /\ dist ax = axis_dist
  /\ xlim3d ax = (x_c - axis_limit / 2, x_c + axis_limit / 2)%Q
  /\ ylim3d ax = (y_c - axis_limit / 2, y_c + axis_limit / 2)%Q
  /\ zlim3d ax = (0, axis_limit)%Q
  /\ scatter ax
     = match pose_kpt_color with
       | Some kc =>
           Some (scatter_points kpts kc (valid_mask kpts kpt_score_thr))
       | None => None
       end
  /\ ax_title ax = title res.

(** The canvas [st] seen after the calls [cs] of an earlier run. *)
Definition after_calls (cs : list cv_call) (st : canvas) : canvas :=
  {| buf := buf st; calls := cs ++ calls st |}.

(** A result seen after the calls [cs] of an earlier run. *)
Definition lift_after (cs : list cv_call) (r : result canvas) : result canvas :=
  match r with
  | Ok st => Ok (after_calls cs st)
  | Raise e => Raise e
  end.

(** ** The domain on which the embedding is exact

    cv2 converts every point, radius and thickness to a C [int] and
    raises [cv2.error] when that fails; the primitives of [Backend] are
    total.  numpy compares a score array with the Python-float threshold
    after rounding the threshold to the dtype of the array; the embedding
    compares the two rationals.  The statements that conclude that a call
    returns, or that rest on the outcome of a score comparison near the
    threshold, carry the conditions below, under which the code and the
    embedding agree. *)

(** A value that fits a C [int]. *)
Definition c_int (z : Z) : Prop := (- 2 ^ 31 <= z < 2 ^ 31)%Z.

(** A colour whose three channels are 8-bit values. *)
Definition color_ok (c : color) : Prop :=
  uint8 (fst (fst c)) /\ uint8 (snd (fst c)) /\ uint8 (snd c).

(** [cv2.circle(img, center, radius, color, -1)] accepts its arguments. *)
Definition circle_accepted (center : point) (radius : Z) (rgb : color)
  : Prop :=
  c_int (fst center) /\ c_int (snd center)
  /\ (0 <= radius)%Z /\ c_int radius /\ color_ok rgb.

(** Every circle that the keypoint loop of a pose may draw is accepted. *)
Definition keypoints_accepted (radius : Z) (pose_kpt_color : list color)
           (kpts : list keypoint) : Prop :=
  forall j kpt rgb,
    nth_error kpts j = Some kpt -> nth_error pose_kpt_color j = Some rgb ->
    circle_accepted (py_int (kx kpt), py_int (ky kpt)) radius rgb.

(** Every limb that may be drawn inside an image of this size is accepted:
    [cv2.line] wants [0 < thickness <= MAX_THICKNESS]. *)
Definition limbs_accepted (img_h0 img_w0 thickness : Z)
           (pose_limb_color : list color) : Prop :=
  c_int img_h0 /\ c_int img_w0 /\ (0 < thickness <= 32767)%Z
  /\ Forall color_ok pose_limb_color.

(** The float dtypes of a keypoint array. *)
Inductive dtype : Set := float32 | float64.

Definition precision (d : dtype) : Z :=
  match d with float32 => 24 | float64 => 53 end.
Definition exponent_min (d : dtype) : Z :=
  match d with float32 => -149 | float64 => -1074 end.
Definition exponent_max (d : dtype) : Z :=
  match d with float32 => 104 | float64 => 971 end.

(** [q] is a finite value of the dtype [d]: [m * 2^e] with [|m| < 2^p].
    Casting such a value to [d] leaves it unchanged. *)
Definition has_dtype (d : dtype) (q : Q) : Prop :=
  exists m e : Z,
    (Z.abs m < 2 ^ precision d)%Z
    /\ (exponent_min d <= e <= exponent_max d)%Z
    /\ (q == inject_Z m * Qpower 2 e)%Q.

(** A score array of dtype [d] and a threshold that [d] represents: the
    comparison with the threshold is then exact. *)
Definition scores_exact (d : dtype) (kpt_score_thr : Q)
           (kpts : list keypoint3d) : Prop :=
  has_dtype d kpt_score_thr
  /\ Forall (fun k => has_dtype d (score3 k)) kpts.

(** * Properties *)

Unset Implicit Arguments.

(** ** Comparisons *)

Lemma Qltb_true_iff (a b : Q) : Qltb a b = true <-> (a < b)%Q.
Proof.
  unfold Qltb. rewrite negb_true_iff.
  split; intro H.
  - apply Qnot_le_lt. intro Hle.
    apply Qle_bool_iff in Hle. congruence.
  - destruct (Qle_bool b a) eqn:E; [|reflexivity].
    apply Qle_bool_iff in E. exfalso. exact (Qlt_not_le _ _ H E).
Qed.

Lemma Qltb_false_iff (a b : Q) : Qltb a b = false <-> (b <= a)%Q.
Proof.
  unfold Qltb. rewrite negb_false_iff. apply Qle_bool_iff.
Qed.

Lemma Qltb_eq_false (a b : Q) : (b == a)%Q -> Qltb a b = false.
Proof.
  intro H. apply Qltb_false_iff. rewrite H. apply Qle_refl.
Qed.

Lemma py_min_le_l (a b : Q) : (py_min a b <= a)%Q.
Proof.
  unfold py_min. destruct (Qltb b a) eqn:E.
  - apply Qltb_true_iff in E. apply Qlt_le_weak, E.
  - apply Qle_refl.
Qed.

Lemma py_min_le_r (a b : Q) : (py_min a b <= b)%Q.
Proof.
  unfold py_min. destruct (Qltb b a) eqn:E.
  - apply Qle_refl.
  - apply Qltb_false_iff in E. exact E.
Qed.

Lemma py_min_cases (a b : Q) : py_min a b = a \/ py_min a b = b.
Proof. unfold py_min. destruct (Qltb b a); auto. Qed.

Lemma Qltb_py_min (t a b : Q) :
  Qltb t (py_min a b) = Qltb t a && Qltb t b.
Proof.
  destruct (Qltb t (py_min a b)) eqn:E.
  - apply Qltb_true_iff in E. symmetry. apply andb_true_iff.
    split; apply Qltb_true_iff.
    + eapply Qlt_le_trans; [exact E | apply py_min_le_l].
    + eapply Qlt_le_trans; [exact E | apply py_min_le_r].
  - symmetry. apply andb_false_iff.
    destruct (py_min_cases a b) as [H | H]; rewrite H in E; auto.
Qed.

(** ** Loops *)

Lemma np_mask_In {A : Type} (a : list A) (mask : list bool) (i : nat) (v : A) :
  nth_error a i = Some v -> nth_error mask i = Some true ->
  In v (np_mask a mask).
Proof.
  revert mask i.
  induction a as [|x a IH]; intros mask i Ha Hm.
  - destruct i; discriminate.
  - destruct mask as [|b mask]; [destruct i; discriminate|].
    destruct i as [|i]; simpl in *.
    + injection Ha as ->. injection Hm as ->. left; reflexivity.
    + destruct b; [right|]; eapply IH; eauto.
Qed.

Lemma np_mask_map_filter {A B : Type} (f : A -> B) (g : A -> bool)
      (l : list A) :
  np_mask (map f l) (map g l) = map f (filter g l).
Proof.
  induction l as [|x l IH]; simpl; [reflexivity|].
  destruct (g x); simpl; rewrite IH; reflexivity.
Qed.

Lemma py_sum_acc (mask : list bool) (acc : Z) :
  fold_left (fun a (b : bool) => if b then (a + 1)%Z else a) mask acc
  = (acc + Z.of_nat (length (filter (fun b => b) mask)))%Z.
Proof.
  revert acc. induction mask as [|b mask IH]; intro acc; simpl.
  - lia.
  - rewrite IH. destruct b; simpl; lia.
Qed.

Lemma py_sum_count (mask : list bool) :
  py_sum mask = Z.of_nat (length (filter (fun b => b) mask)).
Proof. unfold py_sum. rewrite py_sum_acc. lia. Qed.

Lemma nth_error_combine {A B : Type} (a : list A) (b : list B) (i : nat)
      (x : A) (y : B) :
  nth_error a i = Some x -> nth_error b i = Some y ->
  nth_error (combine a b) i = Some (x, y).
Proof.
  revert b i.
  induction a as [|x0 a IH]; intros b i Ha Hb; [destruct i; discriminate|].
  destruct b as [|y0 b]; [destruct i; discriminate|].
  destruct i as [|i]; simpl in *.
  - congruence.
  - apply IH; assumption.
Qed.


(** ** numpy indexing *)


Lemma np_index_len {A : Type} (a : list A) :
  np_index a (Z.of_nat (length a) - 1) = np_index a (0 - 1).
Proof.
  destruct a as [|x a]; [reflexivity|].
  unfold np_index.
  set (n := Z.of_nat (length (x :: a))).
  assert (Hn : (0 < n)%Z) by (subst n; simpl length; lia).
  change (0 - 1 <? 0)%Z with true. cbv iota.
  replace (n - 1 <? 0)%Z with false by (symmetry; apply Z.ltb_ge; lia).
  replace (0 - 1 + n)%Z with (n - 1)%Z by lia.
  reflexivity.
Qed.

(** ** The 2D renderer *)

Section Properties2D.

Variable cv : Backend.
Variables (img_h0 img_w0 : Z) (thr : Q) (radius thickness : Z) (w : bool).

Lemma draw_kpt_hidden (kc : list color) (st : canvas) (kid : nat)
      (kpt : keypoint) :
  (kscore kpt <= thr)%Q -> draw_kpt cv thr radius w kc st kid kpt = Ok st.
Proof.
  intro H. unfold draw_kpt.
  rewrite (proj2 (Qltb_false_iff thr (kscore kpt)) H). reflexivity.
Qed.

Lemma draw_limb_resolved (kpts : list keypoint) (lc : list color)
      (st : canvas) (sk_id : nat) (sk : Z * Z) (k1 k2 : keypoint) :
  np_index kpts (fst sk - 1) = Ok k1 ->
  np_index kpts (snd sk - 1) = Ok k2 ->
  draw_limb cv img_h0 img_w0 thr thickness w kpts lc st sk_id sk =
  let pos1 := (py_int (kx k1), py_int (ky k1)) in
  let pos2 := (py_int (kx k2), py_int (ky k2)) in
  if inside img_h0 img_w0 pos1 && inside img_h0 img_w0 pos2
     && Qltb thr (kscore k1) && Qltb thr (kscore k2)
  then
    rgb <- py_getitem lc sk_id ;;
    if w then
      let polygon := limb_polygon cv pos1 pos2 in
      let transparency :=
        py_max 0%Q (py_min 1%Q ((1 # 2) * (kscore k1 + kscore k2))%Q) in
      Ok (log st
              (addWeighted (fillConvexPoly cv (buf st) polygon rgb)
                           transparency (buf st) (1 - transparency)%Q 0%Q)
              [FillConvexPoly polygon rgb;
               AddWeighted transparency (1 - transparency)%Q 0%Q])
    else
      Ok (log st (line cv (buf st) pos1 pos2 rgb thickness)
              [Line pos1 pos2 rgb thickness])
  else Ok st.
Proof.
  intros H1 H2. unfold draw_limb. rewrite H1. cbn [bind]. rewrite H2.
  reflexivity.
Qed.

Lemma inside_true_iff (p : point) :
  inside img_h0 img_w0 p = true <->
  (0 < fst p < img_w0 /\ 0 < snd p < img_h0)%Z.
Proof.
  unfold inside. rewrite !andb_true_iff, !Z.ltb_lt. tauto.
Qed.

End Properties2D.

(** C2. In [imshow_keypoints] a limb whose end points resolve is drawn
    only if both end points, truncated to int, lie strictly inside the
    image ([0 < x < img_w] and [0 < y < img_h]): whenever the limb step
    does anything but leave the canvas as it was, the four strict bounds
    hold; and a limb with an end-point coordinate equal to the width, to
    the height or to 0 is skipped silently, the step returning the canvas
    unchanged without raising. *)
Theorem limb_drawn_only_strictly_inside :
  forall (cv : Backend) (img_h0 img_w0 : Z) (thr : Q) (thickness : Z)
         (w : bool) (kpts : list keypoint) (lc : list color) (st : canvas)
         (sk_id : nat) (sk : Z * Z) (k1 k2 : keypoint),
    np_index kpts (fst sk - 1) = Ok k1 ->
    np_index kpts (snd sk - 1) = Ok k2 ->
    (draw_limb cv img_h0 img_w0 thr thickness w kpts lc st sk_id sk <> Ok st ->
     (0 < py_int (kx k1) < img_w0 /\ 0 < py_int (ky k1) < img_h0 /\
      0 < py_int (kx k2) < img_w0 /\ 0 < py_int (ky k2) < img_h0)%Z)
    /\
    ((py_int (kx k1) = img_w0 \/ py_int (kx k2) = img_w0 \/
      py_int (ky k1) = img_h0 \/ py_int (ky k2) = img_h0 \/
      py_int (kx k1) = 0 \/ py_int (ky k1) = 0 \/
      py_int (kx k2) = 0 \/ py_int (ky k2) = 0)%Z ->
     draw_limb cv img_h0 img_w0 thr thickness w kpts lc st sk_id sk = Ok st).
Proof.
  intros cv img_h0 img_w0 thr thickness w kpts lc st sk_id sk k1 k2 H1 H2.
  rewrite (draw_limb_resolved cv img_h0 img_w0 thr thickness w kpts lc st
                              sk_id sk k1 k2 H1 H2).
  cbv zeta.
  destruct (inside img_h0 img_w0 (py_int (kx k1), py_int (ky k1))) eqn:E1;
    destruct (inside img_h0 img_w0 (py_int (kx k2), py_int (ky k2))) eqn:E2;
    cbn [andb].
  - apply inside_true_iff in E1. apply inside_true_iff in E2.
    cbn [fst snd] in E1, E2.
    split; [intros _; tauto | intro Hb; exfalso; lia].
  - split; [congruence | reflexivity].
  - split; [congruence | reflexivity].
  - split; [congruence | reflexivity].
Qed.

(** A limb ending at x = img_w (here the point (4, 1) of a 4 x 4 image) is
    skipped. *)
Lemma limb_drawn_only_strictly_inside_witness :
  draw_limb pixel_backend 4 4 (1 # 2) 1 false
            [mkKpt 4 1 1; mkKpt 2 2 1] [(0, 255, 0)%Z]
            (blank (black 4 4)) 0 (1, 2)%Z
  = Ok (blank (black 4 4)).
Proof.
  apply (proj2 (limb_drawn_only_strictly_inside pixel_backend 4 4 (1 # 2) 1
                  false [mkKpt 4 1 1; mkKpt 2 2 1] [(0, 255, 0)%Z]
                  (blank (black 4 4)) 0%nat (1, 2)%Z
                  (mkKpt 4 1 1) (mkKpt 2 2 1) eq_refl eq_refl)).
  left. reflexivity.
Defined.

Section KeypointLoop.

Variable cv : Backend.
Variables (thr : Q) (radius : Z) (w : bool) (kc : list color).

Let tgt : target := if w then ImgCopy else Img.

Lemma draw_kpt_visible (st : canvas) (kid : nat) (kpt : keypoint)
      (rgb : color) :
  nth_error kc kid = Some rgb -> (thr < kscore kpt)%Q ->
  exists b,
    draw_kpt cv thr radius w kc st kid kpt =
    Ok (log st b
            (Circle tgt (py_int (kx kpt), py_int (ky kpt)) radius rgb ::
             if w then
               [AddWeighted (py_max 0 (py_min 1 (kscore kpt)))
                            (1 - py_max 0 (py_min 1 (kscore kpt)))%Q 0%Q]
             else [])).
Proof.
  intros Hc Hs. unfold draw_kpt, py_getitem, tgt.
  rewrite (proj2 (Qltb_true_iff thr (kscore kpt)) Hs), Hc.
  destruct w; cbn [bind]; eexists; reflexivity.
Qed.

Lemma draw_kpt_total (st : canvas) (kid : nat) (kpt : keypoint) :
  (kid < length kc)%nat ->
  exists b cs, draw_kpt cv thr radius w kc st kid kpt = Ok (log st b cs).
Proof.
  intro Hlt.
  destruct (nth_error kc kid) as [rgb|] eqn:Hc;
    [|apply nth_error_None in Hc; lia].
  destruct (Qltb thr (kscore kpt)) eqn:E.
  - apply Qltb_true_iff in E.
    destruct (draw_kpt_visible st kid kpt rgb Hc E) as [b Hb].
    rewrite Hb. eexists. eexists. reflexivity.
  - exists (buf st), []. unfold draw_kpt. rewrite E. unfold log.
    rewrite app_nil_r. destruct st; reflexivity.
Qed.

(** The keypoint loop from index [i0]: it returns, only appends calls,
    and the appended calls hold a circle for every visible keypoint. *)
Lemma kpt_loop_circles (kpts : list keypoint) :
  forall (i0 : nat) (st : canvas),
    (i0 + length kpts <= length kc)%nat ->
    exists st' cs,
      for_enumerate (draw_kpt cv thr radius w kc) i0 kpts st = Ok st'
      /\ calls st' = calls st ++ cs
      /\ forall j kpt rgb,
          nth_error kpts j = Some kpt ->
          nth_error kc (i0 + j) = Some rgb ->
          (thr < kscore kpt)%Q ->
          In (Circle tgt (py_int (kx kpt), py_int (ky kpt)) radius rgb) cs.
Proof.
  induction kpts as [|k kpts IH]; intros i0 st Hlen.
  - exists st, []. cbn. rewrite app_nil_r.
    repeat split. intros [|j] ? ? Hj; discriminate.
  - cbn [length] in Hlen. cbn [for_enumerate].
    destruct (draw_kpt_total st i0 k ltac:(lia)) as (b0 & cs0 & Hd).
    set (st1 := log st b0 cs0) in Hd.
    rewrite Hd. cbn [bind].
    destruct (IH (S i0) st1 ltac:(lia)) as (st' & cs & Hrun & Hcalls & Hin).
    exists st', (cs0 ++ cs). split; [exact Hrun|]. split.
    + rewrite Hcalls. subst st1. unfold log. cbn [calls].
      rewrite app_assoc. reflexivity.
    + intros [|j] kpt rgb Hj Hc Hs.
      * cbn in Hj. injection Hj as ->. rewrite Nat.add_0_r in Hc.
        destruct (draw_kpt_visible st i0 kpt rgb Hc Hs) as [b Hb].
        rewrite Hb in Hd. injection Hd as Hbuf Hcs.
        apply app_inv_head in Hcs. subst cs0.
        apply in_or_app. left. left. reflexivity.
      * apply in_or_app. right. apply (Hin j kpt rgb); auto.
        rewrite <- Hc. f_equal. lia.
Qed.

End KeypointLoop.



(** ** Alpha blending *)

Lemma cvRound_comp (q q' : Q) : (q == q')%Q -> cvRound q = cvRound q'.
Proof.
  intro H. unfold cvRound. rewrite (Qfloor_comp q q' H).
  replace (q - inject_Z (Qfloor q') ?= 1 # 2)%Q
    with (q' - inject_Z (Qfloor q') ?= 1 # 2)%Q; [reflexivity|].
  apply Qcompare_comp; [rewrite H|]; reflexivity.
Qed.

Lemma cvRound_Z (z : Z) : cvRound (inject_Z z) = z.
Proof.
  unfold cvRound. rewrite Qfloor_Z.
  replace (inject_Z z - inject_Z z ?= 1 # 2)%Q with (0 ?= 1 # 2)%Q;
    [reflexivity|].
  apply Qcompare_comp; [ring | reflexivity].
Qed.

Lemma saturate_u8_id (v : Z) : uint8 v -> saturate_u8 v = v.
Proof. unfold uint8, saturate_u8. lia. Qed.

Lemma blend_one_zero (a b : Z) :
  uint8 a ->
  saturate_u8 (cvRound (inject_Z a * 1 + inject_Z b * (1 - 1) + 0)%Q) = a.
Proof.
  intro Ha.
  rewrite (cvRound_comp _ (inject_Z a)) by ring.
  rewrite cvRound_Z. apply saturate_u8_id, Ha.
Qed.

Lemma map2_fst (f : Z -> Z -> Z) (a b : list Z) :
  length a = length b ->
  Forall (fun x => forall y, f x y = x) a ->
  map2 f a b = a.
Proof.
  revert b. induction a as [|x a IH]; intros b Hlen Hall.
  - reflexivity.
  - destruct b as [|y b]; [discriminate|].
    inversion Hall as [|? ? Hx Ha]; subst.
    cbn [map2]. rewrite Hx, IH; auto.
Qed.

(** Blending a copy at weight 1 over the original at weight 0 gives the
    copy. *)
Lemma addWeighted_one_zero (src1 src2 : image) :
  length (data src1) = length (data src2) ->
  Forall uint8 (data src1) ->
  addWeighted src1 1 src2 (1 - 1) 0 = src1.
Proof.
  intros Hlen Hall. unfold addWeighted.
  rewrite map2_fst; [destruct src1; reflexivity | exact Hlen |].
  eapply Forall_impl; [|exact Hall].
  intros a Ha y. cbv beta. apply blend_one_zero, Ha.
Qed.

Lemma transparency_full (s : Q) : (s == 1)%Q -> py_max 0 (py_min 1 s) = 1%Q.
Proof.
  intro H. unfold py_min.
  rewrite (Qltb_eq_false s 1) by (symmetry; exact H).
  reflexivity.
Qed.

(** C7. In [imshow_keypoints], for a keypoint with confidence 1.0 the
    weighted path (circle on a copy, blended back with opacity
    max(0, min(1, score))) leaves the same buffer as the unweighted path
    (the same circle drawn on the image): the opacity is 1, so the copy
    enters with weight 1 and the original with weight 0.  Below a
    threshold of 1 both paths return, and the buffer of both is the image
    with the filled circle at the truncated (x, y) in the colour of the
    keypoint's index.  The circle primitive is taken to return a uint8
    buffer of the size of its input, and its arguments to be accepted by
    cv2. *)
Theorem weighted_at_full_confidence_matches_unweighted :
  forall (cv : Backend) (thr : Q) (radius : Z) (kc : list color)
         (st : canvas) (kid : nat) (kpt : keypoint),
    (kscore kpt == 1)%Q ->
    (forall rgb : color,
        nth_error kc kid = Some rgb ->
        let drawn :=
          circle cv (buf st) (py_int (kx kpt), py_int (ky kpt)) radius rgb in
        length (data drawn) = length (data (buf st))
        /\ Forall uint8 (data drawn)) ->
    py_max 0 (py_min 1 (kscore kpt)) = 1%Q
    /\ match draw_kpt cv thr radius true kc st kid kpt,
             draw_kpt cv thr radius false kc st kid kpt with
       | Ok weighted, Ok plain => buf weighted = buf plain
       | Raise e1, Raise e2 => e1 = e2
       | _, _ => False
       end
    /\ (forall rgb : color,
           nth_error kc kid = Some rgb -> (thr < 1)%Q ->
           circle_accepted (py_int (kx kpt), py_int (ky kpt)) radius rgb ->
           let center := (py_int (kx kpt), py_int (ky kpt)) in
           draw_kpt cv thr radius true kc st kid kpt
           = Ok {| buf := circle cv (buf st) center radius rgb;
                   calls := calls st
                            ++ [Circle ImgCopy center radius rgb;
                                AddWeighted 1 (1 - 1) 0] |}
           /\ draw_kpt cv thr radius false kc st kid kpt
              = Ok {| buf := circle cv (buf st) center radius rgb;
                      calls := calls st ++ [Circle Img center radius rgb] |}).
Proof.
  intros cv thr radius kc st kid kpt Hs Hcircle.
  split; [apply transparency_full, Hs|]. split.
  - unfold draw_kpt, py_getitem.
    destruct (Qltb thr (kscore kpt)); [|reflexivity].
    destruct (nth_error kc kid) as [rgb|]; cbn [bind]; [|reflexivity].
    destruct (Hcircle rgb eq_refl) as [Hlen Hu8].
    rewrite (transparency_full _ Hs). unfold log. cbn [buf].
    apply addWeighted_one_zero; assumption.
  - intros rgb Hc Hthr _. cbv zeta.
    assert (Hlt : Qltb thr (kscore kpt) = true)
      by (apply Qltb_true_iff; rewrite Hs; exact Hthr).
    destruct (Hcircle rgb Hc) as [Hlen Hu8].
    unfold draw_kpt, py_getitem. rewrite Hlt, Hc. cbn [bind].
    rewrite (transparency_full _ Hs). unfold log.
    rewrite addWeighted_one_zero by assumption.
    split; reflexivity.
Qed.

(** A red keypoint of confidence 1 at (1, 1) of a black 4 x 4 image: both
    paths paint the pixel (1, 1) red. *)
Lemma weighted_at_full_confidence_matches_unweighted_witness :
  draw_kpt pixel_backend (3 # 10) 4 true [(0, 0, 255)%Z]
           (blank (black 4 4)) 0 (mkKpt 1 1 1)
  = Ok {| buf := put_pixel (black 4 4) (1, 1)%Z (0, 0, 255)%Z;
          calls := [Circle ImgCopy (1, 1)%Z 4 (0, 0, 255)%Z;
                    AddWeighted 1 (1 - 1) 0] |}
  /\ draw_kpt pixel_backend (3 # 10) 4 false [(0, 0, 255)%Z]
              (blank (black 4 4)) 0 (mkKpt 1 1 1)
     = Ok {| buf := put_pixel (black 4 4) (1, 1)%Z (0, 0, 255)%Z;
             calls := [Circle Img (1, 1)%Z 4 (0, 0, 255)%Z] |}.
Proof.
  destruct (weighted_at_full_confidence_matches_unweighted pixel_backend
              (3 # 10) 4 [(0, 0, 255)%Z] (blank (black 4 4)) 0%nat
              (mkKpt 1 1 1)) as (_ & _ & H).
  - reflexivity.
  - intros rgb Hrgb. injection Hrgb as <-.
    split; [reflexivity|].
    vm_compute. repeat constructor; discriminate.
  - apply (H (0, 0, 255)%Z eq_refl); [reflexivity|].
    unfold circle_accepted, c_int, color_ok, uint8. cbn. lia.
Defined.

(** ** The 3D renderer *)

Lemma py_sum_positive {A : Type} (g : A -> bool) (l : list A) :
  (0 <? py_sum (map g l))%Z = existsb g l.
Proof.
  rewrite py_sum_count.
  induction l as [|x l IH]; [reflexivity|].
  cbn [map filter existsb]. destruct (g x); cbn [orb length].
  - apply Z.ltb_lt. lia.
  - exact IH.
Qed.

Lemma plot_limb_resolved (kpts : list keypoint3d) (thr : Q) (limb : Z * Z)
      (limb_color : color) (k1 k2 : keypoint3d) :
  np_index kpts (fst limb - 1) = Ok k1 ->
  np_index kpts (snd limb - 1) = Ok k2 ->
  plot_limb kpts thr limb limb_color =
  if Qltb thr (score3 k1) && Qltb thr (score3 k2) then
    Ok (Some {| xs_3d := (x3 k1, x3 k2);
                ys_3d := (y3 k1, y3 k2);
                zs_3d := (z3 k1, z3 k2);
                line_color := to_rgb01 limb_color |})
  else Ok None.
Proof.
  intros H1 H2. unfold plot_limb. cbn [fst snd]. rewrite H1. cbn [bind].
  rewrite H2. cbn [bind]. rewrite Qltb_py_min. reflexivity.
Qed.

Lemma scatter_points_In (kpts : list keypoint3d) (kc : list color) (thr : Q)
      (i : nat) (k : keypoint3d) (c : color) :
  nth_error kpts i = Some k -> nth_error kc i = Some c ->
  (thr <= score3 k)%Q ->
  In (x3 k, y3 k, z3 k, to_rgb01 c)
     (scatter_points kpts kc (valid_mask kpts thr)).
Proof.
  intros Hk Hc Hs. unfold scatter_points.
  change (x3 k, y3 k, z3 k, to_rgb01 c)
    with ((fun kc0 : keypoint3d * rgb01 =>
             (x3 (fst kc0), y3 (fst kc0), z3 (fst kc0), snd kc0))
            (k, to_rgb01 c)).
  apply in_map. apply (np_mask_In _ _ i).
  - apply nth_error_combine; [exact Hk|].
    rewrite nth_error_map, Hc. reflexivity.
  - unfold valid_mask. rewrite nth_error_map, Hk. cbn.
    f_equal. apply Qle_bool_iff, Hs.
Qed.

(** C1, the claim as stated, fails: in [imshow_keypoints_3d] a keypoint
    whose score equals the threshold is handed to [ax.scatter]. *)
Lemma keypoint_at_threshold_is_scattered_3d :
  (score3 (mkKpt3d 1 2 3 (1 # 2)) == 1 # 2)%Q
  /\ exists fig ax,
      imshow_keypoints_3d [mkPose3d [mkKpt3d 1 2 3 (1 # 2)] None] None None
                          (Some [(255, 0, 0)%Z]) None 400 (1 # 2)
                          70 (17 # 10) 10 15 = Ok fig
      /\ panels fig = [PosePanel ax]
      /\ scatter ax = Some [(1, 2, 3, to_rgb01 (255, 0, 0)%Z)]%Q.
Proof.
  split; [reflexivity|].
  eexists. eexists. split; [vm_compute; reflexivity|].
  split; reflexivity.
Qed.

(** C1 (amended).  For a keypoint whose score equals [kpt_score_thr]:
    [imshow_keypoints] draws no circle for it and no limb that has it as
    an end point (the keypoint step and the limb step return the canvas
    unchanged); [imshow_keypoints_3d] draws no limb that has it as an end
    point, but does scatter it, with its colour: the 3D validity mask is
    [score >= kpt_score_thr]. *)
Theorem score_at_threshold_visibility :
  forall (cv : Backend) (img_h0 img_w0 : Z) (thr : Q)
         (radius thickness : Z) (w : bool),
    (forall (kc : list color) (st : canvas) (kid : nat) (kpt : keypoint),
        (kscore kpt == thr)%Q ->
        draw_kpt cv thr radius w kc st kid kpt = Ok st)
    /\ (forall (kpts : list keypoint) (lc : list color) (st : canvas)
               (sk_id : nat) (sk : Z * Z) (k1 k2 : keypoint),
           np_index kpts (fst sk - 1) = Ok k1 ->
           np_index kpts (snd sk - 1) = Ok k2 ->
           (kscore k1 == thr)%Q \/ (kscore k2 == thr)%Q ->
           draw_limb cv img_h0 img_w0 thr thickness w kpts lc st sk_id sk
           = Ok st)
    /\ (forall (kpts : list keypoint3d) (kc : list color) (i : nat)
               (k : keypoint3d) (c : color),
           nth_error kpts i = Some k -> nth_error kc i = Some c ->
           (score3 k == thr)%Q ->
           In (x3 k, y3 k, z3 k, to_rgb01 c)
              (scatter_points kpts kc (valid_mask kpts thr)))
    /\ (forall (kpts : list keypoint3d) (limb : Z * Z) (limb_color : color)
               (k1 k2 : keypoint3d),
           np_index kpts (fst limb - 1) = Ok k1 ->
           np_index kpts (snd limb - 1) = Ok k2 ->
           (score3 k1 == thr)%Q \/ (score3 k2 == thr)%Q ->
           plot_limb kpts thr limb limb_color = Ok None).
Proof.
  intros cv img_h0 img_w0 thr radius thickness w.
  split; [|split; [|split]].
  - intros kc st kid kpt H. apply draw_kpt_hidden.
    rewrite H. apply Qle_refl.
  - intros kpts lc st sk_id sk k1 k2 H1 H2 Hs.
    rewrite (draw_limb_resolved cv img_h0 img_w0 thr thickness w kpts lc st
               sk_id sk k1 k2 H1 H2).
    cbv zeta.
    destruct Hs as [Hs | Hs]; rewrite (Qltb_eq_false _ _ Hs);
      rewrite ?andb_false_r; reflexivity.
  - intros kpts kc i k c Hk Hc Hs.
    apply (scatter_points_In kpts kc thr i k c Hk Hc).
    rewrite Hs. apply Qle_refl.
  - intros kpts limb limb_color k1 k2 H1 H2 Hs.
    rewrite (plot_limb_resolved kpts thr limb limb_color k1 k2 H1 H2).
    destruct Hs as [Hs | Hs]; rewrite (Qltb_eq_false _ _ Hs);
      rewrite ?andb_false_r; reflexivity.
Qed.

(** Threshold 1/2 and a keypoint of score 1/2, in both renderers. *)
Lemma score_at_threshold_visibility_witness :
  draw_kpt pixel_backend (1 # 2) 4 false [(0, 0, 255)%Z] (blank (black 4 4))
           0 (mkKpt 1 1 (1 # 2)) = Ok (blank (black 4 4))
  /\ draw_limb pixel_backend 4 4 (1 # 2) 1 false
               [mkKpt 1 1 (1 # 2); mkKpt 2 2 1] [(0, 255, 0)%Z]
               (blank (black 4 4)) 0 (1, 2)%Z = Ok (blank (black 4 4))
  /\ In (1, 2, 3, to_rgb01 (255, 0, 0)%Z)%Q
        (scatter_points [mkKpt3d 1 2 3 (1 # 2)] [(255, 0, 0)%Z]
                        (valid_mask [mkKpt3d 1 2 3 (1 # 2)] (1 # 2)))
  /\ plot_limb [mkKpt3d 1 2 3 (1 # 2); mkKpt3d 0 0 0 1] (1 # 2) (1, 2)%Z
               (0, 255, 0)%Z = Ok None.
Proof.
  destruct (score_at_threshold_visibility pixel_backend 4 4 (1 # 2) 4 1 false)
    as (H1 & H2 & H3 & H4).
  split; [|split; [|split]].
  - apply H1. reflexivity.
  - apply (H2 _ _ _ _ _ (mkKpt 1 1 (1 # 2)) (mkKpt 2 2 1));
      [reflexivity | reflexivity | left; reflexivity].
  - apply (H3 _ _ 0%nat (mkKpt3d 1 2 3 (1 # 2)) (255, 0, 0)%Z);
      reflexivity.
  - apply (H4 _ _ _ (mkKpt3d 1 2 3 (1 # 2)) (mkKpt3d 0 0 0 1));
      [reflexivity | reflexivity | left; reflexivity].
Defined.

(** C4, the claim as stated, fails: with both end points at the threshold
    (so both meet [score >= kpt_score_thr]) the limb is not plotted. *)
Lemma limb_3d_at_threshold_not_drawn :
  (1 # 2 <= score3 (mkKpt3d 0 0 0 (1 # 2)))%Q
  /\ (1 # 2 <= score3 (mkKpt3d 1 1 1 (1 # 2)))%Q
  /\ exists fig ax,
      imshow_keypoints_3d
        [mkPose3d [mkKpt3d 0 0 0 (1 # 2); mkKpt3d 1 1 1 (1 # 2)] None]
        None (Some [(1, 2)%Z]) None (Some [(0, 255, 0)%Z]) 400 (1 # 2)
        70 (17 # 10) 10 15 = Ok fig
      /\ panels fig = [PosePanel ax]
      /\ plots ax = [].
Proof.
  split; [discriminate|]. split; [discriminate|].
  eexists. eexists. split; [vm_compute; reflexivity|].
  split; reflexivity.
Qed.

(** C4 (amended).  In [imshow_keypoints_3d] a limb whose end points
    resolve is plotted exactly when both end-point scores strictly exceed
    [kpt_score_thr]; the line joins the two keypoints and carries the
    limb's colour, reversed and scaled to [0, 1]. *)
Theorem limb_3d_drawn_iff_both_strictly_above :
  forall (kpts : list keypoint3d) (thr : Q) (limb : Z * Z)
         (limb_color : color) (k1 k2 : keypoint3d),
    np_index kpts (fst limb - 1) = Ok k1 ->
    np_index kpts (snd limb - 1) = Ok k2 ->
    ((thr < score3 k1)%Q /\ (thr < score3 k2)%Q ->
     plot_limb kpts thr limb limb_color =
     Ok (Some {| xs_3d := (x3 k1, x3 k2);
                 ys_3d := (y3 k1, y3 k2);
                 zs_3d := (z3 k1, z3 k2);
                 line_color := to_rgb01 limb_color |}))
    /\ (~ ((thr < score3 k1)%Q /\ (thr < score3 k2)%Q) ->
        plot_limb kpts thr limb limb_color = Ok None).
Proof.
  intros kpts thr limb limb_color k1 k2 H1 H2.
  rewrite (plot_limb_resolved kpts thr limb limb_color k1 k2 H1 H2).
  destruct (Qltb thr (score3 k1)) eqn:E1;
    destruct (Qltb thr (score3 k2)) eqn:E2; cbn [andb];
    rewrite ?Qltb_true_iff in *.
  - split; [reflexivity | tauto].
  - apply Qltb_false_iff in E2.
    split; [intros [_ H]; exfalso; exact (Qlt_not_le _ _ H E2) | reflexivity].
  - apply Qltb_false_iff in E1.
    split; [intros [H _]; exfalso; exact (Qlt_not_le _ _ H E1) | reflexivity].
  - apply Qltb_false_iff in E1.
    split; [intros [H _]; exfalso; exact (Qlt_not_le _ _ H E1) | reflexivity].
Qed.

(** Scores 9/10 and 3/5 against the threshold 1/2: the limb is plotted. *)
Lemma limb_3d_drawn_iff_both_strictly_above_witness :
  plot_limb [mkKpt3d 0 0 0 (9 # 10); mkKpt3d 1 1 1 (3 # 5)] (1 # 2) (1, 2)%Z
            (0, 255, 0)%Z
  = Ok (Some {| xs_3d := (0, 1)%Q;
                ys_3d := (0, 1)%Q;
                zs_3d := (0, 1)%Q;
                line_color := to_rgb01 (0, 255, 0)%Z |}).
Proof.
  apply (proj1 (limb_3d_drawn_iff_both_strictly_above
                  [mkKpt3d 0 0 0 (9 # 10); mkKpt3d 1 1 1 (3 # 5)] (1 # 2)
                  (1, 2)%Z (0, 255, 0)%Z
                  (mkKpt3d 0 0 0 (9 # 10)) (mkKpt3d 1 1 1 (3 # 5))
                  eq_refl eq_refl)).
  split; reflexivity.
Defined.

Section PanelLoop.

Variable show_img : bool.
Variable skeleton : option (list (Z * Z)).
Variables (kc lc : option (list color)).
Variables (thr az lim dst el : Q).

Lemma draw_pose3d_adds_one (fig fig' : list panel) (idx : nat) (res : pose3d) :
  draw_pose3d show_img skeleton kc lc thr az lim dst el fig idx res = Ok fig' ->
  length fig' = S (length fig).
Proof.
  unfold draw_pose3d.
  destruct (center (keypoints_3d res) thr) as [x_c y_c].
  match goal with
  | |- bind ?m _ = _ -> _ => destruct m as [sc|e]; cbn [bind]; [|discriminate]
  end.
  match goal with
  | |- bind ?m _ = _ -> _ => destruct m as [ls|e]; cbn [bind]; [|discriminate]
  end.
  intro H. injection H as <-. rewrite length_app. simpl. lia.
Qed.

Lemma pose_loop_length (pose_result : list pose3d) :
  forall (i : nat) (fig fig' : list panel),
    for_enumerate (draw_pose3d show_img skeleton kc lc thr az lim dst el)
                  i pose_result fig = Ok fig' ->
    length fig' = (length fig + length pose_result)%nat.
Proof.
  induction pose_result as [|res rest IH]; intros i fig fig' H.
  - cbn in H. injection H as <-. cbn. lia.
  - cbn [for_enumerate] in H.
    destruct (draw_pose3d show_img skeleton kc lc thr az lim dst el
                          fig i res) as [fig1|e] eqn:E;
      cbn [bind] in H; [|discriminate].
    apply draw_pose3d_adds_one in E. apply IH in H.
    cbn [length]. lia.
Qed.

End PanelLoop.

(** C5. In [imshow_keypoints_3d] the number of panels is the number of
    pose records plus one if and only if a reference image is supplied,
    and the number of pose records otherwise; a call that returns has
    laid out exactly that many subplots. *)
Theorem panel_count :
  forall (pose_result : list pose3d) (img : option image)
         (skeleton : option (list (Z * Z))) (kc lc : option (list color))
         (vis_height : Z) (thr az lim dst el : Q),
    (num_axis pose_result img = (length pose_result + 1)%nat <-> img <> None)
    /\ (img = None -> num_axis pose_result img = length pose_result)
    /\ (forall fig : figure,
           imshow_keypoints_3d pose_result img skeleton kc lc vis_height thr
                               az lim dst el = Ok fig ->
           ncols fig = num_axis pose_result img
           /\ length (panels fig) = num_axis pose_result img).
Proof.
  intros pose_result img skeleton kc lc vis_height thr az lim dst el.
  split; [|split].
  - unfold num_axis. destruct img as [i|]; cbn [is_some].
    + split; [discriminate | reflexivity].
    + split; [lia | congruence].
  - intros ->. reflexivity.
  - intros fig H. unfold imshow_keypoints_3d in H.
    match type of H with
    | bind ?m _ = _ => destruct m as [ps|e] eqn:E; cbn [bind] in H;
                       [|discriminate]
    end.
    injection H as <-. cbn [ncols panels]. split; [reflexivity|].
    apply pose_loop_length in E. rewrite E.
    unfold num_axis. destruct img; cbn; lia.
Qed.

(** Two poses beside a reference image: three panels. *)
Lemma panel_count_witness :
  num_axis [mkPose3d [] None; mkPose3d [] None] (Some (black 4 4)) = 3%nat
  /\ exists fig,
      imshow_keypoints_3d [mkPose3d [] None; mkPose3d [] None]
                          (Some (black 4 4)) None None None 400 (3 # 10)
                          70 (17 # 10) 10 15 = Ok fig
      /\ length (panels fig) = 3%nat.
Proof.
  destruct (panel_count [mkPose3d [] None; mkPose3d [] None]
                        (Some (black 4 4)) None None None 400 (3 # 10)
                        70 (17 # 10) 10 15) as (H1 & _ & H3).
  split; [apply H1; discriminate|].
  eexists. split; [vm_compute; reflexivity|].
  apply (proj2 (H3 _ eq_refl)).
Defined.

(** C6, the claim as stated, fails: a pose whose only keypoint has a score
    equal to the threshold has no keypoint above the threshold, yet its
    centre is that keypoint's (x, y), not (0, 0). *)
Lemma center_at_threshold_is_not_default :
  (forall k, In k [mkKpt3d 1 2 3 (1 # 2)] -> ~ (1 # 2 < score3 k)%Q)
  /\ (fst (center [mkKpt3d 1 2 3 (1 # 2)] (1 # 2)) == 1)%Q
  /\ (snd (center [mkKpt3d 1 2 3 (1 # 2)] (1 # 2)) == 2)%Q
  /\ center [mkKpt3d 1 2 3 (1 # 2)] (1 # 2) <> (0%Q, 0%Q).
Proof.
  split; [|split; [|split]].
  - intros k [<- | []]. discriminate.
  - reflexivity.
  - reflexivity.
  - intro H. apply (f_equal fst) in H. vm_compute in H. discriminate.
Qed.

(** Dyadic rationals are values of a float dtype. *)
Ltac dyadic m e :=
  unfold has_dtype; exists m, e;
  split; [reflexivity | split; [split; discriminate | reflexivity]].

(** C6 (amended).  In [imshow_keypoints_3d], on a score array whose dtype
    represents the threshold (so that the comparison with the threshold is
    exact), for a pose with no keypoint whose score is at or above the
    threshold ([score >= kpt_score_thr]) the centre [(x_c, y_c)] is
    [(0, 0)]; otherwise it is the mean of the x and of the y coordinates
    of the keypoints with [score >= kpt_score_thr].  The computation is
    total. *)
Theorem center_default_or_mean :
  forall (d : dtype) (kpts : list keypoint3d) (thr : Q),
    scores_exact d thr kpts ->
    ((forall k, In k kpts -> (score3 k < thr)%Q) ->
     center kpts thr = (0%Q, 0%Q))
    /\ ((exists k, In k kpts /\ (thr <= score3 k)%Q) ->
        center kpts thr =
        (np_mean (map x3 (filter (fun k => Qle_bool thr (score3 k)) kpts)),
         np_mean (map y3 (filter (fun k => Qle_bool thr (score3 k)) kpts)))).
Proof.
  intros d kpts thr _. unfold center, valid_mask.
  rewrite py_sum_positive, !np_mask_map_filter.
  split.
  - intro Hall.
    replace (existsb (fun k => Qle_bool thr (score3 k)) kpts) with false;
      [reflexivity|].
    symmetry. apply not_true_is_false. intro Hex.
    apply existsb_exists in Hex. destruct Hex as (k & Hin & Hk).
    apply Qle_bool_iff in Hk.
    exact (Qlt_not_le _ _ (Hall k Hin) Hk).
  - intros (k & Hin & Hk).
    replace (existsb (fun k => Qle_bool thr (score3 k)) kpts) with true;
      [reflexivity|].
    symmetry. apply existsb_exists. exists k. split; [exact Hin|].
    apply Qle_bool_iff, Hk.
Qed.

(** float32 scores against the threshold 1/2.  One keypoint of score 1/4:
    centre (0, 0).  Keypoints (1, 2) and (3, 6) of scores 1/2 and 3/4, one
    of score 1/4: the centre is the mean of the first two. *)
Lemma center_default_or_mean_witness :
  center [mkKpt3d 5 7 0 (1 # 4)] (1 # 2) = (0%Q, 0%Q)
  /\ center [mkKpt3d 1 2 0 (1 # 2); mkKpt3d 9 9 9 (1 # 4);
             mkKpt3d 3 6 0 (3 # 4)] (1 # 2)
     = (np_mean [1; 3], np_mean [2; 6])%Q.
Proof.
  split.
  - apply (proj1 (center_default_or_mean float32 [mkKpt3d 5 7 0 (1 # 4)]
                    (1 # 2)
                    ltac:(split; [dyadic 1%Z (-1)%Z|];
                          apply Forall_cons; [dyadic 1%Z (-2)%Z|];
                          apply Forall_nil))).
    intros k [<- | []]. reflexivity.
  - apply (proj2 (center_default_or_mean float32
                    [mkKpt3d 1 2 0 (1 # 2); mkKpt3d 9 9 9 (1 # 4);
                     mkKpt3d 3 6 0 (3 # 4)] (1 # 2)
                    ltac:(split; [dyadic 1%Z (-1)%Z|];
                          apply Forall_cons; [dyadic 1%Z (-1)%Z|];
                          apply Forall_cons; [dyadic 1%Z (-2)%Z|];
                          apply Forall_cons; [dyadic 3%Z (-2)%Z|];
                          apply Forall_nil))).
    exists (mkKpt3d 1 2 0 (1 # 2)). split; [left; reflexivity | discriminate].
Defined.

(** ** The box renderer and the length assertions *)

(** C3 fails on the code: for an empty box array [np.split(bboxes, 0)]
    raises ZeroDivisionError, whatever the other arguments are, so
    [imshow_bboxes] raises before anything is drawn. *)
Theorem imshow_bboxes_empty_raises :
  forall (cv : Backend) (img : image) (labels : option (one_or_list string))
         (colors : one_or_list (color_spec cv)) (text_color : color_spec cv)
         (thickness : Z) (font_scale : Q) (show : bool) (win_name : string)
         (wait_time : Z) (out_file : option string),
    imshow_bboxes cv img [] labels colors text_color thickness font_scale
                  show win_name wait_time out_file
    = Raise ZeroDivisionError.
Proof. reflexivity. Qed.

Lemma np_split_rows {A : Type} (ary : list A) :
  ary <> [] ->
  exists parts, np_split ary (length ary) = Ok parts
                /\ length parts = length ary.
Proof.
  intro Hne. unfold np_split.
  destruct (length ary) as [|n] eqn:Hn;
    [destruct ary; [congruence | discriminate]|].
  rewrite Nat.Div0.mod_same. cbn [Nat.eqb negb].
  eexists. split; [reflexivity|].
  rewrite length_map, length_seq. reflexivity.
Qed.

Lemma py_assert_neq (a b : nat) :
  a <> b -> py_assert (Nat.eqb a b) = Raise AssertionError.
Proof.
  intro H. unfold py_assert.
  destruct (Nat.eqb a b) eqn:E; [apply Nat.eqb_eq in E; contradiction|].
  reflexivity.
Qed.

Lemma py_assert_eq (a b : nat) : a = b -> py_assert (Nat.eqb a b) = Ok tt.
Proof. intros ->. unfold py_assert. rewrite Nat.eqb_refl. reflexivity. Qed.


Section Assertions2D.

Variable cv : Backend.
Variables (img_h0 img_w0 : Z) (thr : Q) (radius thickness : Z) (w : bool).
Variable skeleton : option (list (Z * Z)).



End Assertions2D.




(** * Further properties of the 2D renderer *)

Lemma transparency_bounds (s : Q) :
  (0 <= py_max 0 (py_min 1 s))%Q /\ (py_max 0 (py_min 1 s) <= 1)%Q.
Proof.
  unfold py_max. destruct (Qltb 0 (py_min 1 s)) eqn:E.
  - apply Qltb_true_iff in E.
    split; [apply Qlt_le_weak, E | apply py_min_le_l].
  - split; [apply Qle_refl | discriminate].
Qed.

Lemma np_index_in_range {A : Type} (a : list A) (i : Z) :
  joint_in_range (length a) i -> exists v, np_index a (i - 1) = Ok v.
Proof.
  unfold joint_in_range, np_index. intro H.
  set (n := Z.of_nat (length a)) in *.
  set (j := if (i - 1 <? 0)%Z then (i - 1 + n)%Z else (i - 1)%Z).
  assert (Hj : (0 <= j < n)%Z).
  { subst j. destruct (i - 1 <? 0)%Z eqn:E;
      [apply Z.ltb_lt in E | apply Z.ltb_ge in E]; lia. }
  replace ((0 <=? j) && (j <? n))%Z with true
    by (symmetry; apply andb_true_iff; split;
        [apply Z.leb_le | apply Z.ltb_lt]; lia).
  destruct (nth_error a (Z.to_nat j)) as [v|] eqn:E; [eauto|].
  apply nth_error_None in E. subst n. lia.
Qed.

Lemma np_index_out_of_range {A : Type} (a : list A) (i : Z) :
  ~ joint_in_range (length a) i -> np_index a (i - 1) = Raise IndexError.
Proof.
  unfold joint_in_range, np_index. intro H.
  set (n := Z.of_nat (length a)) in *.
  set (j := if (i - 1 <? 0)%Z then (i - 1 + n)%Z else (i - 1)%Z).
  assert (Hj : ~ (0 <= j < n)%Z).
  { subst j. destruct (i - 1 <? 0)%Z eqn:E;
      [apply Z.ltb_lt in E | apply Z.ltb_ge in E]; lia. }
  replace ((0 <=? j) && (j <? n))%Z with false; [reflexivity|].
  symmetry. apply andb_false_iff.
  destruct (Z.leb_spec 0 j); [right; apply Z.ltb_ge; lia | left; reflexivity].
Qed.

Lemma for_enumerate_calls {A : Type} (P : cv_call -> Prop)
      (body : canvas -> nat -> A -> result canvas) :
  (forall st i a st',
      body st i a = Ok st' ->
      exists cs, calls st' = calls st ++ cs /\ Forall P cs) ->
  forall (l : list A) (i : nat) (st st' : canvas),
    for_enumerate body i l st = Ok st' ->
    exists cs, calls st' = calls st ++ cs /\ Forall P cs.
Proof.
  intros Hbody l. induction l as [|a l IH]; intros i st st' H.
  - cbn in H. injection H as <-. exists []. rewrite app_nil_r. auto.
  - cbn [for_enumerate] in H.
    destruct (body st i a) as [st1|e] eqn:E; cbn [bind] in H; [|discriminate].
    destruct (Hbody _ _ _ _ E) as (cs1 & Hc1 & Hp1).
    destruct (IH _ _ _ H) as (cs2 & Hc2 & Hp2).
    exists (cs1 ++ cs2). rewrite Hc2, Hc1, app_assoc.
    split; [reflexivity | apply Forall_app; auto].
Qed.

Lemma for_each_calls {A : Type} (P : cv_call -> Prop)
      (body : canvas -> A -> result canvas) :
  (forall st a st',
      body st a = Ok st' ->
      exists cs, calls st' = calls st ++ cs /\ Forall P cs) ->
  forall (l : list A) (st st' : canvas),
    for_each body l st = Ok st' ->
    exists cs, calls st' = calls st ++ cs /\ Forall P cs.
Proof.
  intros Hbody l. induction l as [|a l IH]; intros st st' H.
  - cbn in H. injection H as <-. exists []. rewrite app_nil_r. auto.
  - cbn [for_each] in H.
    destruct (body st a) as [st1|e] eqn:E; cbn [bind] in H; [|discriminate].
    destruct (Hbody _ _ _ E) as (cs1 & Hc1 & Hp1).
    destruct (IH _ _ H) as (cs2 & Hc2 & Hp2).
    exists (cs1 ++ cs2). rewrite Hc2, Hc1, app_assoc.
    split; [reflexivity | apply Forall_app; auto].
Qed.

Section Invariant2D.

Variable cv : Backend.
Variables (img_h0 img_w0 : Z) (thr : Q) (radius thickness : Z) (w : bool).

Let ok := keypoint_call_ok img_h0 img_w0 w.

Lemma draw_kpt_calls (kc : list color) (st : canvas) (kid : nat)
      (kpt : keypoint) (st' : canvas) :
  draw_kpt cv thr radius w kc st kid kpt = Ok st' ->
  exists cs, calls st' = calls st ++ cs /\ Forall ok cs.
Proof.
  unfold draw_kpt.
  destruct (Qltb thr (kscore kpt));
    [|intro H; injection H as <-; exists []; rewrite app_nil_r; auto].
  destruct (py_getitem kc kid) as [rgb|e];
    [|destruct w; cbn [bind]; discriminate].
  destruct (transparency_bounds (kscore kpt)) as [H0 H1].
  subst ok. destruct w; cbn [bind]; intro H; injection H as <-;
    eexists; (split; [reflexivity|]); repeat constructor; assumption.
Qed.

Lemma draw_limb_calls (kpts : list keypoint) (lc : list color) (st : canvas)
      (sk_id : nat) (sk : Z * Z) (st' : canvas) :
  draw_limb cv img_h0 img_w0 thr thickness w kpts lc st sk_id sk = Ok st' ->
  exists cs, calls st' = calls st ++ cs /\ Forall ok cs.
Proof.
  unfold draw_limb.
  destruct (np_index kpts (fst sk - 1)) as [k1|e]; cbn [bind]; [|discriminate].
  destruct (np_index kpts (snd sk - 1)) as [k2|e]; cbn [bind]; [|discriminate].
  match goal with
  | |- (if ?c then _ else _) = _ -> _ => destruct c eqn:Hc
  end; [|intro H; injection H as <-; exists []; rewrite app_nil_r; auto].
  apply andb_true_iff in Hc. destruct Hc as [Hc _].
  apply andb_true_iff in Hc. destruct Hc as [Hc _].
  apply andb_true_iff in Hc. destruct Hc as [Hin1 Hin2].
  destruct (py_getitem lc sk_id) as [rgb|e]; cbn [bind]; [|discriminate].
  destruct (transparency_bounds ((1 # 2) * (kscore k1 + kscore k2)))
    as [H0 H1].
  subst ok. destruct w; intro H; injection H as <-;
    eexists; (split; [reflexivity|]); repeat constructor; assumption.
Qed.

Lemma draw_pose_calls (skeleton : option (list (Z * Z)))
      (kc lc : option (list color)) (st : canvas) (kpts : list keypoint)
      (st' : canvas) :
  draw_pose cv img_h0 img_w0 thr radius thickness w skeleton kc lc st kpts
  = Ok st' ->
  exists cs, calls st' = calls st ++ cs /\ Forall ok cs.
Proof.
  unfold draw_pose. intro H.
  match type of H with
  | bind ?m _ = _ => destruct m as [st1|e] eqn:E1; cbn [bind] in H;
                     [|discriminate]
  end.
  assert (H1 : exists cs, calls st1 = calls st ++ cs /\ Forall ok cs).
  { destruct kc as [c|].
    - destruct (py_assert (Nat.eqb (length c) (length kpts)));
        cbn [bind] in E1; [|discriminate].
      eapply for_enumerate_calls; [|exact E1].
      intros. eapply draw_kpt_calls; eassumption.
    - injection E1 as <-. exists []. rewrite app_nil_r. auto. }
  assert (H2 : exists cs, calls st' = calls st1 ++ cs /\ Forall ok cs).
  { destruct skeleton as [skel|]; [destruct lc as [l|]|];
      try (injection H as <-; exists []; rewrite app_nil_r; auto; fail).
    destruct (py_assert (Nat.eqb (length l) (length skel)));
      cbn [bind] in H; [|discriminate].
    eapply for_enumerate_calls; [|exact H].
    intros. eapply draw_limb_calls; eassumption. }
  destruct H1 as (cs1 & Hc1 & Hp1). destruct H2 as (cs2 & Hc2 & Hp2).
  exists (cs1 ++ cs2). rewrite Hc2, Hc1, app_assoc.
  split; [reflexivity | apply Forall_app; auto].
Qed.

End Invariant2D.

Lemma imshow_keypoints_calls (cv : Backend) (img : image)
      (pose_result : list (list keypoint)) (skeleton : option (list (Z * Z)))
      (thr : Q) (kc lc : option (list color)) (radius thickness : Z)
      (w : bool) (st : canvas) :
  imshow_keypoints cv img pose_result skeleton thr kc lc radius thickness w
  = Ok st ->
  Forall (keypoint_call_ok (img_h img) (img_w img) w) (calls st).
Proof.
  unfold imshow_keypoints. intro H.
  eapply for_each_calls in H;
    [|intros; eapply draw_pose_calls; eassumption].
  destruct H as (cs & Hc & Hp). cbn [calls app] in Hc. rewrite Hc. exact Hp.
Qed.

(** X1. Every line that a returning call of [imshow_keypoints] draws has
    both end points strictly inside the image, in any pose and for any
    skeleton: [0 < x < img_w] and [0 < y < img_h]. *)
Theorem lines_lie_inside_image :
  forall (cv : Backend) (img : image) (pose_result : list (list keypoint))
         (skeleton : option (list (Z * Z))) (thr : Q)
         (kc lc : option (list color)) (radius thickness : Z) (w : bool)
         (st : canvas) (pt1 pt2 : point) (c : color) (t : Z),
    imshow_keypoints cv img pose_result skeleton thr kc lc radius thickness w
    = Ok st ->
    In (Line pt1 pt2 c t) (calls st) ->
    (0 < fst pt1 < img_w img /\ 0 < snd pt1 < img_h img /\
     0 < fst pt2 < img_w img /\ 0 < snd pt2 < img_h img)%Z.
Proof.
  intros cv img pose_result skeleton thr kc lc radius thickness w st
         pt1 pt2 c t H Hin.
  apply imshow_keypoints_calls in H.
  rewrite Forall_forall in H. specialize (H _ Hin).
  cbn in H. destruct H as (_ & H1 & H2).
  apply inside_true_iff in H1. apply inside_true_iff in H2. tauto.
Qed.

(** Two poses on a 4 x 4 image: the limb of the first joins (1, 1) and
    (2, 3); the limb of the second would leave the image and is absent. *)
Lemma lines_lie_inside_image_witness :
  (0 < 1 < 4 /\ 0 < 1 < 4 /\ 0 < 2 < 4 /\ 0 < 3 < 4)%Z.
Proof.
  apply (lines_lie_inside_image pixel_backend (black 4 4)
           [[mkKpt 1 1 1; mkKpt 2 3 1]; [mkKpt 1 1 1; mkKpt 9 9 1]]
           (Some [(1, 2)%Z]) (1 # 2) None (Some [(0, 255, 0)%Z]) 4 1 false
           _ (1, 1)%Z (2, 3)%Z (0, 255, 0)%Z 1%Z eq_refl).
  left. reflexivity.
Defined.

(** X2. A returning call of [imshow_keypoints] draws in one mode only.
    Without [show_keypoint_weight] it calls nothing but [cv2.circle] on the
    image and [cv2.line]; with it, nothing but [cv2.circle] on a copy,
    [cv2.fillConvexPoly] and [cv2.addWeighted]: the image is then only
    written through blends. *)
Theorem calls_follow_the_mode :
  forall (cv : Backend) (img : image) (pose_result : list (list keypoint))
         (skeleton : option (list (Z * Z))) (thr : Q)
         (kc lc : option (list color)) (radius thickness : Z) (w : bool)
         (st : canvas) (c : cv_call),
    imshow_keypoints cv img pose_result skeleton thr kc lc radius thickness w
    = Ok st ->
    In c (calls st) ->
    if w then
      (exists center r rgb, c = Circle ImgCopy center r rgb)
      \/ (exists polygon rgb, c = FillConvexPoly polygon rgb)
      \/ (exists alpha beta gamma, c = AddWeighted alpha beta gamma)
    else
      (exists center r rgb, c = Circle Img center r rgb)
      \/ (exists pt1 pt2 rgb t, c = Line pt1 pt2 rgb t).
Proof.
  intros cv img pose_result skeleton thr kc lc radius thickness w st c H Hin.
  apply imshow_keypoints_calls in H.
  rewrite Forall_forall in H. specialize (H _ Hin).
  destruct c; cbn in H; try contradiction.
  - subst dst. destruct w; left; eauto.
  - destruct H as (-> & _). right. eauto 6.
  - subst w. right. left. eauto.
  - destruct H as (-> & _). right. right. eauto.
Qed.

(** A weighted call: the first recorded call is a circle on the copy. *)
Lemma calls_follow_the_mode_witness :
  (exists center r rgb,
      Circle ImgCopy (1, 1)%Z 4 (0, 0, 255)%Z = Circle ImgCopy center r rgb)
  \/ (exists polygon rgb,
         Circle ImgCopy (1, 1)%Z 4 (0, 0, 255)%Z = FillConvexPoly polygon rgb)
  \/ (exists alpha beta gamma,
         Circle ImgCopy (1, 1)%Z 4 (0, 0, 255)%Z
         = AddWeighted alpha beta gamma).
Proof.
  apply (calls_follow_the_mode pixel_backend (black 4 4) [[mkKpt 1 1 (4 # 5)]]
           None (1 # 2) (Some [(0, 0, 255)%Z]) None 4 1 true
           _ (Circle ImgCopy (1, 1)%Z 4 (0, 0, 255)%Z) eq_refl).
  left. reflexivity.
Defined.

(** X3. Every blend of a returning call of [imshow_keypoints] is a convex
    combination: the copy enters with a weight [t] in [0, 1], the image
    with [1 - t], and nothing is added; whatever the scores are (negative,
    above 1), the clamp keeps the weights in range. *)
Theorem blend_weights_are_clamped :
  forall (cv : Backend) (img : image) (pose_result : list (list keypoint))
         (skeleton : option (list (Z * Z))) (thr : Q)
         (kc lc : option (list color)) (radius thickness : Z) (w : bool)
         (st : canvas) (alpha beta gamma : Q),
    imshow_keypoints cv img pose_result skeleton thr kc lc radius thickness w
    = Ok st ->
    In (AddWeighted alpha beta gamma) (calls st) ->
    (0 <= alpha)%Q /\ (alpha <= 1)%Q /\ beta = (1 - alpha)%Q /\ gamma = 0%Q.
Proof.
  intros cv img pose_result skeleton thr kc lc radius thickness w st
         alpha beta gamma H Hin.
  apply imshow_keypoints_calls in H.
  rewrite Forall_forall in H. specialize (H _ Hin).
  cbn in H. tauto.
Qed.

(** A keypoint of score 5 against the threshold 1/2: the blend weights
    are 1 and 1 - 1. *)
Lemma blend_weights_are_clamped_witness :
  (0 <= 1)%Q /\ (1 <= 1)%Q /\ (1 - 1)%Q = (1 - 1)%Q /\ 0%Q = 0%Q.
Proof.
  apply (blend_weights_are_clamped pixel_backend (black 4 4) [[mkKpt 1 1 5]]
           None (1 # 2) (Some [(0, 0, 255)%Z]) None 4 1 true
           _ 1%Q (1 - 1)%Q 0%Q eq_refl).
  right. left. reflexivity.
Defined.

(** X4. Without keypoint colours and without limb colours (or without a
    skeleton) [imshow_keypoints] draws nothing: it returns the image as it
    was and calls no primitive, for any poses, whatever their joint
    indices or lengths are. *)
Theorem no_colors_no_drawing :
  forall (cv : Backend) (img : image) (pose_result : list (list keypoint))
         (thr : Q) (radius thickness : Z) (w : bool),
    (forall skeleton : option (list (Z * Z)),
        imshow_keypoints cv img pose_result skeleton thr None None
                         radius thickness w
        = Ok {| buf := img; calls := [] |})
    /\ (forall lc : option (list color),
           imshow_keypoints cv img pose_result None thr None lc
                            radius thickness w
           = Ok {| buf := img; calls := [] |}).
Proof.
  intros cv img pose_result thr radius thickness w.
  unfold imshow_keypoints.
  generalize {| buf := img; calls := [] |}.
  split.
  - intro skeleton.
    induction pose_result as [|kpts rest IH]; [reflexivity|].
    cbn [for_each]. unfold draw_pose at 1. cbn [bind].
    destruct skeleton; exact IH.
  - intro lc.
    induction pose_result as [|kpts rest IH]; [reflexivity|].
    cbn [for_each]. unfold draw_pose at 1. cbn [bind]. exact IH.
Qed.

Section Limbs2D.

Variable cv : Backend.
Variables (img_h0 img_w0 : Z) (thr : Q) (radius thickness : Z) (w : bool).

Lemma draw_limb_returns (kpts : list keypoint) (lc : list color)
      (st : canvas) (sk_id : nat) (sk : Z * Z) :
  joint_in_range (length kpts) (fst sk) ->
  joint_in_range (length kpts) (snd sk) ->
  (sk_id < length lc)%nat ->
  exists st',
    draw_limb cv img_h0 img_w0 thr thickness w kpts lc st sk_id sk = Ok st'.
Proof.
  intros H1 H2 Hlt.
  destruct (np_index_in_range kpts _ H1) as [k1 E1].
  destruct (np_index_in_range kpts _ H2) as [k2 E2].
  rewrite (draw_limb_resolved cv img_h0 img_w0 thr thickness w kpts lc st
             sk_id sk k1 k2 E1 E2).
  cbv zeta.
  match goal with |- context [if ?c then _ else _] => destruct c end;
    [|eexists; reflexivity].
  unfold py_getitem.
  destruct (nth_error lc sk_id) as [rgb|] eqn:Hc;
    [|apply nth_error_None in Hc; lia].
  cbn [bind]. destruct w; eexists; reflexivity.
Qed.

Lemma draw_limb_out_of_range (kpts : list keypoint) (lc : list color)
      (st : canvas) (sk_id : nat) (sk : Z * Z) :
  ~ joint_in_range (length kpts) (fst sk)
  \/ ~ joint_in_range (length kpts) (snd sk) ->
  draw_limb cv img_h0 img_w0 thr thickness w kpts lc st sk_id sk
  = Raise IndexError.
Proof.
  intro H. unfold draw_limb.
  destruct (np_index kpts (fst sk - 1)) as [k1|e] eqn:E1; cbn [bind].
  - destruct H as [H | H].
    + rewrite (np_index_out_of_range kpts _ H) in E1. discriminate.
    + rewrite (np_index_out_of_range kpts _ H). reflexivity.
  - unfold np_index in E1.
    destruct (_ && _)%bool in E1; [|congruence].
    destruct (nth_error _ _) in E1; [discriminate | congruence].
Qed.

Lemma limb_loop_returns (kpts : list keypoint) (lc : list color)
      (skel : list (Z * Z)) :
  forall (i0 : nat) (st : canvas),
    (i0 + length skel <= length lc)%nat ->
    (forall sk, In sk skel ->
                joint_in_range (length kpts) (fst sk)
                /\ joint_in_range (length kpts) (snd sk)) ->
    exists st',
      for_enumerate (draw_limb cv img_h0 img_w0 thr thickness w kpts lc)
                    i0 skel st = Ok st'.
Proof.
  induction skel as [|sk skel IH]; intros i0 st Hlen Hrange.
  - eexists. reflexivity.
  - cbn [length] in Hlen. cbn [for_enumerate].
    destruct (Hrange sk (or_introl eq_refl)) as [H1 H2].
    destruct (draw_limb_returns kpts lc st i0 sk H1 H2 ltac:(lia))
      as [st1 E].
    rewrite E. cbn [bind].
    apply IH; [lia | intros; apply Hrange; right; assumption].
Qed.

Lemma draw_pose_returns (skeleton : option (list (Z * Z)))
      (kc lc : option (list color)) (st : canvas) (kpts : list keypoint) :
  (forall c, kc = Some c -> length c = length kpts) ->
  (forall skel l,
      skeleton = Some skel -> lc = Some l ->
      length l = length skel
      /\ forall sk, In sk skel ->
                    joint_in_range (length kpts) (fst sk)
                    /\ joint_in_range (length kpts) (snd sk)) ->
  exists st',
    draw_pose cv img_h0 img_w0 thr radius thickness w skeleton kc lc st kpts
    = Ok st'.
Proof.
  intros Hkc Hlc. unfold draw_pose.
  assert (H1 : exists st1,
             match kc with
             | Some c =>
                 _ <- py_assert (Nat.eqb (length c) (length kpts)) ;;
                 for_enumerate (draw_kpt cv thr radius w c) 0 kpts st
             | None => Ok st
             end = Ok st1).
  { destruct kc as [c|]; [|eauto].
    rewrite (py_assert_eq _ _ (Hkc c eq_refl)). cbn [bind].
    destruct (kpt_loop_circles cv thr radius w c kpts 0 st)
      as (st1 & _ & Hrun & _); [rewrite (Hkc c eq_refl); lia | eauto]. }
  destruct H1 as [st1 ->]. cbn [bind].
  destruct skeleton as [skel|]; [destruct lc as [l|]|]; eauto.
  destruct (Hlc skel l eq_refl eq_refl) as [Hlen Hrange].
  rewrite (py_assert_eq _ _ Hlen). cbn [bind].
  apply limb_loop_returns; [lia | exact Hrange].
Qed.

End Limbs2D.

(** The embedding returns for consistent lengths and resolvable joints. *)
Lemma imshow_keypoints_total (cv : Backend) (img : image)
      (pose_result : list (list keypoint)) (skeleton : option (list (Z * Z)))
      (thr : Q) (kc lc : option (list color)) (radius thickness : Z)
      (w : bool) :
  (forall c kpts, kc = Some c -> In kpts pose_result ->
                  length c = length kpts) ->
  (forall skel l,
      skeleton = Some skel -> lc = Some l ->
      length l = length skel
      /\ forall kpts sk,
          In kpts pose_result -> In sk skel ->
          joint_in_range (length kpts) (fst sk)
          /\ joint_in_range (length kpts) (snd sk)) ->
  exists st,
    imshow_keypoints cv img pose_result skeleton thr kc lc radius thickness w
    = Ok st.
Proof.
  revert cv img pose_result skeleton thr kc lc radius thickness w.

  intros cv img pose_result skeleton thr kc lc radius thickness w Hkc Hlc.
  unfold imshow_keypoints.
  generalize {| buf := img; calls := [] |}.
  induction pose_result as [|kpts rest IH]; intro st; [eexists; reflexivity|].
  cbn [for_each].
  destruct (draw_pose_returns cv (img_h img) (img_w img) thr radius thickness
              w skeleton kc lc st kpts) as [st1 E].
  - intros c Hc. apply (Hkc c kpts Hc). left. reflexivity.
  - intros skel l Hs Hl. destruct (Hlc skel l Hs Hl) as [Hlen Hrange].
    split; [exact Hlen|]. intros sk Hin. apply (Hrange kpts sk); auto.
    left. reflexivity.
  - rewrite E. cbn [bind]. apply IH.
    + intros c k Hc Hin. apply (Hkc c k Hc). right. exact Hin.
    + intros skel l Hs Hl. destruct (Hlc skel l Hs Hl) as [Hlen Hrange].
      split; [exact Hlen|]. intros k sk Hk Hin. apply Hrange; auto.
      right. exact Hk.
Qed.

(** X5. [imshow_keypoints] returns a buffer whenever its inputs are
    consistent and cv2 accepts what it is handed: keypoint colours, when
    given, number as many as the keypoints of every pose, and every circle
    that may be drawn has a centre and a radius that fit a C int, a
    non-negative radius and an 8-bit colour; limb colours, when given with
    a skeleton, number as many as its limbs, are 8-bit colours, the line
    thickness lies in 1..32767 and every joint index [i] of the skeleton
    satisfies [1 - K <= i <= K] for every pose of [K] keypoints.  Scores
    are unconstrained, and so is the position of the keypoints relative to
    the image. *)
Theorem imshow_keypoints_returns :
  forall (cv : Backend) (img : image) (pose_result : list (list keypoint))
         (skeleton : option (list (Z * Z))) (thr : Q)
         (kc lc : option (list color)) (radius thickness : Z) (w : bool),
    (forall c kpts, kc = Some c -> In kpts pose_result ->
                    length c = length kpts
                    /\ keypoints_accepted radius c kpts) ->
    (forall skel l,
        skeleton = Some skel -> lc = Some l ->
        length l = length skel
        /\ limbs_accepted (img_h img) (img_w img) thickness l
        /\ forall kpts sk,
            In kpts pose_result -> In sk skel ->
            joint_in_range (length kpts) (fst sk)
            /\ joint_in_range (length kpts) (snd sk)) ->
    exists st,
      imshow_keypoints cv img pose_result skeleton thr kc lc radius thickness w
      = Ok st.
Proof.
  intros cv img pose_result skeleton thr kc lc radius thickness w Hkc Hlc.
  apply imshow_keypoints_total.
  - intros c kpts Hc Hin. apply (Hkc c kpts Hc Hin).
  - intros skel l Hs Hl. destruct (Hlc skel l Hs Hl) as (Hlen & _ & Hrange).
    split; [exact Hlen | exact Hrange].
Qed.

Ltac accepted :=
  unfold keypoints_accepted, circle_accepted, limbs_accepted, c_int,
    color_ok, uint8.

(** Two poses of two keypoints, two colours, the limbs (1, 2) and (0, -1). *)
Lemma imshow_keypoints_returns_witness :
  exists st,
    imshow_keypoints pixel_backend (black 4 4)
                     [[mkKpt 1 1 1; mkKpt 2 3 1]; [mkKpt 8 8 0; mkKpt 1 2 1]]
                     (Some [(1, 2); (0, -1)]%Z) (1 # 2)
                     (Some [(0, 0, 255); (255, 0, 0)]%Z)
                     (Some [(0, 255, 0); (0, 255, 255)]%Z) 4 1 true
    = Ok st.
Proof.
  apply imshow_keypoints_returns.
  - intros c kpts Hc Hin. injection Hc as <-.
    destruct Hin as [<- | [<- | []]]; (split; [reflexivity|]); accepted;
      intros [|[|[|j]]] kpt rgb Hk Hr; cbn in Hk, Hr; try discriminate;
      injection Hk as <-; injection Hr as <-; cbn; lia.
  - intros skel l Hs Hl. injection Hs as <-. injection Hl as <-.
    split; [reflexivity|]. split.
    + accepted. repeat split; try (cbn; lia).
      repeat constructor; cbn; lia.
    + intros kpts sk Hk Hin.
      destruct Hk as [<- | [<- | []]]; destruct Hin as [<- | [<- | []]];
        split; unfold joint_in_range; cbn; lia.
Defined.

(** X6. In [imshow_keypoints] a joint index outside [1 - K, K] in the
    first limb raises IndexError in the first pose, before any limb is
    drawn and whatever the scores are: an unresolvable joint is not
    skipped like a hidden or out-of-image one.  Keypoint colours, when
    given, fit the first pose and its circles are accepted by cv2, so that
    the keypoint loop, which runs first, returns. *)
Theorem skeleton_index_out_of_range_raises :
  forall (cv : Backend) (img : image) (kpts : list keypoint)
         (rest : list (list keypoint)) (sk : Z * Z) (sks : list (Z * Z))
         (thr : Q) (kc : option (list color)) (lc : list color)
         (radius thickness : Z) (w : bool),
    (forall c, kc = Some c ->
               length c = length kpts /\ keypoints_accepted radius c kpts) ->
    length lc = S (length sks) ->
    ~ joint_in_range (length kpts) (fst sk)
    \/ ~ joint_in_range (length kpts) (snd sk) ->
    imshow_keypoints cv img (kpts :: rest) (Some (sk :: sks)) thr kc (Some lc)
                     radius thickness w
    = Raise IndexError.
Proof.
  intros cv img kpts rest sk sks thr kc lc radius thickness w Hkc Hlen Hout.
  unfold imshow_keypoints. cbn [for_each]. unfold draw_pose at 1.
  match goal with
  | |- bind (bind ?m _) _ = _ =>
      assert (H1 : exists st1, m = Ok st1)
  end.
  { destruct kc as [c|]; [|eauto].
    destruct (Hkc c eq_refl) as [Hc _].
    rewrite (py_assert_eq _ _ Hc). cbn [bind].
    destruct (kpt_loop_circles cv thr radius w c kpts 0
                               {| buf := img; calls := [] |})
      as (st1 & _ & Hrun & _); [rewrite Hc; lia | eauto]. }
  destruct H1 as [st1 ->]. cbn [bind].
  change (S (length sks)) with (length (sk :: sks)) in Hlen.
  rewrite (py_assert_eq _ _ Hlen). cbn [bind for_enumerate].
  rewrite draw_limb_out_of_range by exact Hout. reflexivity.
Qed.

(** Three keypoints and the limb (1, 4). *)
Lemma skeleton_index_out_of_range_raises_witness :
  imshow_keypoints pixel_backend (black 4 4)
                   [[mkKpt 1 1 0; mkKpt 2 2 0; mkKpt 3 3 0]]
                   (Some [(1, 4)%Z]) (1 # 2) None (Some [(0, 255, 0)%Z])
                   4 1 false
  = Raise IndexError.
Proof.
  apply skeleton_index_out_of_range_raises.
  - discriminate.
  - reflexivity.
  - right. unfold joint_in_range. cbn. lia.
Defined.

Lemma skipn_nth_error {A : Type} (l : list A) (i : nat) (c : A) :
  nth_error l i = Some c -> skipn i l = c :: skipn (S i) l.
Proof.
  revert i. induction l as [|x l IH]; intros [|i] H; try discriminate.
  - injection H as ->. reflexivity.
  - cbn in H. apply IH in H. exact H.
Qed.

Section InPlaceKeypoints.

Variable cv : Backend.
Variables (thr : Q) (radius : Z) (kc : list color).

Let paint (b : image) (pc : point * color) : image :=
  circle cv b (fst pc) radius (snd pc).
Let record (pc : point * color) : cv_call :=
  Circle Img (fst pc) radius (snd pc).

Lemma kpt_loop_exact (kpts : list keypoint) :
  forall (i0 : nat) (st : canvas),
    (i0 + length kpts <= length kc)%nat ->
    for_enumerate (draw_kpt cv thr radius false kc) i0 kpts st
    = Ok {| buf := fold_left paint
                             (visible_circles thr (skipn i0 kc) kpts) (buf st);
            calls := calls st
                     ++ map record (visible_circles thr (skipn i0 kc) kpts) |}.
Proof.
  induction kpts as [|k kpts IH]; intros i0 st Hlen.
  - cbn. rewrite app_nil_r. destruct st; reflexivity.
  - cbn [length] in Hlen. cbn [for_enumerate].
    destruct (nth_error kc i0) as [c|] eqn:Hc;
      [|apply nth_error_None in Hc; lia].
    rewrite (skipn_nth_error kc i0 c Hc).
    unfold visible_circles. cbn [combine filter fst snd].
    unfold draw_kpt at 1, py_getitem. rewrite Hc.
    destruct (Qltb thr (kscore k)); cbn [bind].
    + rewrite IH by lia. unfold log, visible_circles.
      cbn [buf calls map fold_left fst snd]. rewrite <- app_assoc.
      reflexivity.
    + rewrite IH by lia. reflexivity.
Qed.

Lemma pose_loop_exact (img_h0 img_w0 thickness : Z)
      (skeleton : option (list (Z * Z))) (pose_result : list (list keypoint)) :
  (forall kpts, In kpts pose_result -> length kc = length kpts) ->
  forall st : canvas,
    for_each (draw_pose cv img_h0 img_w0 thr radius thickness false skeleton
                        (Some kc) None) pose_result st
    = Ok {| buf := fold_left paint
                             (flat_map (visible_circles thr kc) pose_result)
                             (buf st);
            calls := calls st
                     ++ map record
                            (flat_map (visible_circles thr kc) pose_result) |}.
Proof.
  induction pose_result as [|kpts rest IH]; intros Hlen st.
  - cbn. rewrite app_nil_r. destruct st; reflexivity.
  - cbn [for_each flat_map]. unfold draw_pose at 1.
    rewrite (py_assert_eq _ _ (Hlen kpts (or_introl eq_refl))).
    cbn [bind].
    rewrite (kpt_loop_exact kpts 0 st)
      by (rewrite (Hlen kpts (or_introl eq_refl)); lia).
    cbn [skipn bind].
    match goal with
    | |- bind ?m _ = _ =>
        replace m
          with (Ok {| buf := fold_left paint (visible_circles thr kc kpts)
                                       (buf st);
                      calls := calls st
                               ++ map record (visible_circles thr kc kpts) |})
          by (destruct skeleton; reflexivity)
    end.
    cbn [bind].
    rewrite IH by (intros k Hk; apply Hlen; right; exact Hk).
    cbn [buf calls]. rewrite fold_left_app, map_app, app_assoc. reflexivity.
Qed.

End InPlaceKeypoints.

Lemma pose_loop_lengths (cv : Backend) (img_h0 img_w0 : Z) (thr : Q)
      (radius thickness : Z) (w : bool) (skeleton : option (list (Z * Z)))
      (kc : list color) (lc : option (list color))
      (pose_result : list (list keypoint)) :
  forall st st' : canvas,
    for_each (draw_pose cv img_h0 img_w0 thr radius thickness w skeleton
                        (Some kc) lc) pose_result st = Ok st' ->
    forall kpts, In kpts pose_result -> length kc = length kpts.
Proof.
  induction pose_result as [|kpts0 rest IH]; intros st st' H kpts Hin;
    [contradiction|].
  cbn [for_each] in H.
  destruct (draw_pose cv img_h0 img_w0 thr radius thickness w skeleton
                      (Some kc) lc st kpts0) as [st1|e] eqn:E;
    cbn [bind] in H; [|discriminate].
  destruct Hin as [<- | Hin]; [|exact (IH st1 st' H kpts Hin)].
  unfold draw_pose in E.
  destruct (Nat.eqb (length kc) (length kpts0)) eqn:El;
    [apply Nat.eqb_eq, El | discriminate].
Qed.

(** X7. Without [show_keypoint_weight] and without limb colours, a
    returning call of [imshow_keypoints] has drawn exactly one filled
    circle per keypoint whose score exceeds the threshold, pose after pose
    and in keypoint order, at the truncated coordinates and in the colour
    of the keypoint's index; the returned buffer is the image after these
    circles and the log holds nothing else. *)
Theorem in_place_keypoints_exact :
  forall (cv : Backend) (img : image) (pose_result : list (list keypoint))
         (skeleton : option (list (Z * Z))) (thr : Q) (kc : list color)
         (radius thickness : Z) (st : canvas),
    imshow_keypoints cv img pose_result skeleton thr (Some kc) None
                     radius thickness false = Ok st ->
    st = {| buf := fold_left (fun b pc => circle cv b (fst pc) radius (snd pc))
                             (flat_map (visible_circles thr kc) pose_result)
                             img;
            calls := map (fun pc => Circle Img (fst pc) radius (snd pc))
                         (flat_map (visible_circles thr kc) pose_result) |}.
Proof.
  intros cv img pose_result skeleton thr kc radius thickness st H.
  unfold imshow_keypoints in H.
  assert (Hlen : forall kpts, In kpts pose_result -> length kc = length kpts)
    by (eapply pose_loop_lengths; exact H).
  rewrite (pose_loop_exact cv thr radius kc (img_h img) (img_w img) thickness
                           skeleton pose_result Hlen) in H.
  injection H as <-. reflexivity.
Qed.

(** Two poses of two keypoints; the scores 9/10, 1/10, 1/2 and 3/5 leave
    the first keypoint of the first pose and the second of the second. *)
Lemma in_place_keypoints_exact_witness :
  {| buf := put_pixel (put_pixel (black 4 4) (1, 1)%Z (0, 0, 255)%Z)
                      (0, 2)%Z (255, 0, 0)%Z;
     calls := [Circle Img (1, 1)%Z 4 (0, 0, 255)%Z;
               Circle Img (0, 2)%Z 4 (255, 0, 0)%Z] |}
  = {| buf := fold_left
                (fun b pc => circle pixel_backend b (fst pc) 4 (snd pc))
                (flat_map (visible_circles (1 # 2)
                                           [(0, 0, 255); (255, 0, 0)]%Z)
                          [[mkKpt 1 1 (9 # 10); mkKpt 2 2 (1 # 10)];
                           [mkKpt 3 3 (1 # 2); mkKpt 0 2 (3 # 5)]])
                (black 4 4);
       calls := map (fun pc => Circle Img (fst pc) 4 (snd pc))
                    (flat_map (visible_circles (1 # 2)
                                               [(0, 0, 255); (255, 0, 0)]%Z)
                              [[mkKpt 1 1 (9 # 10); mkKpt 2 2 (1 # 10)];
                               [mkKpt 3 3 (1 # 2); mkKpt 0 2 (3 # 5)]]) |}.
Proof.
  apply (in_place_keypoints_exact pixel_backend (black 4 4)
           [[mkKpt 1 1 (9 # 10); mkKpt 2 2 (1 # 10)];
            [mkKpt 3 3 (1 # 2); mkKpt 0 2 (3 # 5)]]
           None (1 # 2) [(0, 0, 255); (255, 0, 0)]%Z 4 1).
  reflexivity.
Defined.

Lemma map2_snd (f : Z -> Z -> Z) (a b : list Z) :
  length a = length b ->
  Forall (fun y => forall x, f x y = y) b ->
  map2 f a b = b.
Proof.
  revert b. induction a as [|x a IH]; intros b Hlen Hall.
  - destruct b; [reflexivity | discriminate].
  - destruct b as [|y b]; [discriminate|].
    inversion Hall as [|? ? Hy Hb]; subst.
    cbn [map2]. rewrite Hy, IH; auto.
Qed.

Lemma blend_zero_one (a b : Z) :
  uint8 b ->
  saturate_u8 (cvRound (inject_Z a * 0 + inject_Z b * (1 - 0) + 0)%Q) = b.
Proof.
  intro Hb.
  rewrite (cvRound_comp _ (inject_Z b)) by ring.
  rewrite cvRound_Z. apply saturate_u8_id, Hb.
Qed.

Lemma transparency_none (s : Q) : (s <= 0)%Q -> py_max 0 (py_min 1 s) = 0%Q.
Proof.
  intro H. unfold py_min.
  replace (Qltb s 1) with true
    by (symmetry; apply Qltb_true_iff;
        eapply Qle_lt_trans; [exact H | reflexivity]).
  unfold py_max.
  rewrite (proj2 (Qltb_false_iff 0 s) H). reflexivity.
Qed.

(** X8. In weighted mode a keypoint that passes a negative threshold with
    a score of at most 0 is drawn on the copy, but the clamp makes its
    opacity 0: the blend returns the pixels of the image as they were.
    The image is a uint8 buffer and [cv2.circle] keeps its size. *)
Theorem weighted_at_zero_confidence_keeps_pixels :
  forall (cv : Backend) (thr : Q) (radius : Z) (kc : list color)
         (st : canvas) (kid : nat) (kpt : keypoint) (rgb : color),
    nth_error kc kid = Some rgb ->
    (thr < kscore kpt)%Q -> (kscore kpt <= 0)%Q ->
    length (data (circle cv (buf st) (py_int (kx kpt), py_int (ky kpt))
                         radius rgb))
    = length (data (buf st)) ->
    Forall uint8 (data (buf st)) ->
    exists st',
      draw_kpt cv thr radius true kc st kid kpt = Ok st'
      /\ data (buf st') = data (buf st)
      /\ calls st' = calls st
                     ++ [Circle ImgCopy (py_int (kx kpt), py_int (ky kpt))
                                radius rgb;
                         AddWeighted 0 (1 - 0) 0].
Proof.
  intros cv thr radius kc st kid kpt rgb Hc Hlt Hle Hlen Hu8.
  unfold draw_kpt, py_getitem.
  rewrite (proj2 (Qltb_true_iff thr (kscore kpt)) Hlt), Hc. cbn [bind].
  rewrite (transparency_none _ Hle).
  eexists. split; [reflexivity|]. split; [|reflexivity].
  unfold log, addWeighted. cbn [buf data].
  apply map2_snd; [exact Hlen|].
  eapply Forall_impl; [|exact Hu8].
  intros b Hb x. cbv beta. apply blend_zero_one, Hb.
Qed.

(** Threshold -1 and a keypoint of score -1/2 on a black image. *)
Lemma weighted_at_zero_confidence_keeps_pixels_witness :
  exists st',
    draw_kpt pixel_backend (-1) 4 true [(0, 0, 255)%Z] (blank (black 4 4))
             0 (mkKpt 1 1 (- (1 # 2))) = Ok st'
    /\ data (buf st') = data (black 4 4).
Proof.
  destruct (weighted_at_zero_confidence_keeps_pixels pixel_backend (-1) 4
              [(0, 0, 255)%Z] (blank (black 4 4)) 0%nat
              (mkKpt 1 1 (- (1 # 2))) (0, 0, 255)%Z)
    as (st' & Hrun & Hdata & _).
  - reflexivity.
  - reflexivity.
  - discriminate.
  - reflexivity.
  - vm_compute. repeat constructor; discriminate.
  - exists st'. split; [exact Hrun | exact Hdata].
Defined.

(** * Further properties of the box renderer *)

Lemma firstn_skipn_singleton {A : Type} (pre l : list A) (x : A) :
  firstn 1 (skipn (length pre) (pre ++ x :: l)) = [x].
Proof.
  rewrite skipn_app, skipn_all, Nat.sub_diag. reflexivity.
Qed.

Lemma split_rows_from {A : Type} (l : list A) :
  forall pre : list A,
    map (fun i => firstn 1 (skipn (i * 1) (pre ++ l)))
        (seq (length pre) (length l))
    = map (fun b => [b]) l.
Proof.
  induction l as [|x l IH]; intro pre; [reflexivity|].
  cbn [length seq map]. rewrite Nat.mul_1_r, firstn_skipn_singleton.
  f_equal.
  specialize (IH (pre ++ [x])).
  rewrite <- app_assoc, length_app, Nat.add_1_r in IH. exact IH.
Qed.

(** [np.split(bboxes, k)] of [k >= 1] rows: one single-row array per box. *)
Lemma np_split_singletons {A : Type} (ary : list A) :
  ary <> [] -> np_split ary (length ary) = Ok (map (fun b => [b]) ary).
Proof.
  intro Hne. unfold np_split.
  destruct (length ary) as [|n] eqn:Hn;
    [destruct ary; [congruence | discriminate]|].
  rewrite Nat.Div0.mod_same. cbn [Nat.eqb negb].
  rewrite Nat.div_same by discriminate.
  rewrite <- Hn. rewrite <- (split_rows_from ary []). reflexivity.
Qed.

Lemma map_const_seq {A B : Type} (c : B) (l : list A) (i : nat) :
  map (fun _ => c) (seq i (length l)) = repeat c (length l).
Proof.
  revert i. induction l as [|x l IH]; intro i; [reflexivity|].
  cbn. rewrite IH. reflexivity.
Qed.

Section Labels.

Variable cv : Backend.
Variables (text_color : color_spec cv) (thickness : Z) (font_scale : Q).

Lemma draw_label_calls (st : canvas) (item : list bbox * string * color)
      (st' : canvas) :
  draw_label cv text_color thickness font_scale st item = Ok st' ->
  exists cs, calls st' = calls st ++ cs /\ Forall label_call_ok cs.
Proof.
  destruct item as [[box label] c]. unfold draw_label.
  destruct (np_index box 0) as [row|e]; cbn [bind]; [|discriminate].
  destruct (getTextSize cv label font_scale thickness)
    as [text_size text_baseline].
  intro H. injection H as <-.
  eexists. split; [reflexivity|].
  repeat constructor. cbn [label_call_ok snd]. unfold py_max_int.
  match goal with |- context [(0 <? ?v)%Z] => destruct (Z.ltb_spec 0 v) end;
    lia.
Qed.

End Labels.

Lemma output_calls_log (st : canvas) (show : bool) (win_name : string)
      (wait_time : Z) (out_file : option string) :
  calls (let st1 :=
           if show then log st (buf st) [Imshow win_name wait_time] else st in
         match out_file with
         | Some f => log st1 (buf st1) [Imwrite f]
         | None => st1
         end)
  = calls st ++ output_calls show win_name wait_time out_file.
Proof.
  unfold output_calls, log.
  destruct show, out_file; cbn [calls buf app];
    rewrite <- ?app_assoc, ?app_nil_r; reflexivity.
Qed.

Lemma put_text_labels_output (show : bool) (win_name : string)
      (wait_time : Z) (out_file : option string) :
  put_text_labels (output_calls show win_name wait_time out_file) = [].
Proof. destruct show, out_file; reflexivity. Qed.

(** The log of a returning call of [imshow_bboxes]: the rectangles of
    mmcv, the label calls, the output calls. *)
Lemma imshow_bboxes_calls (cv : Backend) (img : image) (bboxes : list bbox)
      (labels : option (one_or_list string))
      (colors : one_or_list (color_spec cv)) (text_color : color_spec cv)
      (thickness : Z) (font_scale : Q) (show : bool) (win_name : string)
      (wait_time : Z) (out_file : option string) (st : canvas) :
  imshow_bboxes cv img bboxes labels colors text_color thickness font_scale
                show win_name wait_time out_file = Ok st ->
  exists cols cs,
    calls st = ImshowBboxes (length bboxes) cols thickness
               :: cs ++ output_calls show win_name wait_time out_file
    /\ length cols = length bboxes
    /\ Forall label_call_ok cs
    /\ (labels = None -> cs = []).
Proof.
  unfold imshow_bboxes. intro H.
  destruct (np_split bboxes (length bboxes)) as [parts|e] eqn:Hs;
    cbn [bind] in H; [|discriminate].
  assert (Hparts : length parts = length bboxes).
  { destruct bboxes as [|b bboxes]; [discriminate|].
    destruct (np_split_rows (b :: bboxes) ltac:(discriminate))
      as (parts' & Hs' & Hlen).
    rewrite Hs in Hs'. injection Hs' as <-. exact Hlen. }
  match type of H with
  | bind (py_assert (Nat.eqb _ (length ?c))) _ = _ =>
      set (cols := c) in *; destruct (Nat.eqb (length parts) (length cols)) eqn:Hc
  end; cbn [py_assert bind] in H; [|discriminate].
  apply Nat.eqb_eq in Hc.
  match type of H with
  | bind ?m _ = _ => destruct m as [st1|e] eqn:Hl
  end; cbn [bind] in H; [|discriminate].
  injection H as <-.
  assert (H1 : exists cs,
             calls st1 = [ImshowBboxes (length parts) cols thickness] ++ cs
             /\ Forall label_call_ok cs /\ (labels = None -> cs = [])).
  { destruct labels as [labels|].
    - destruct (py_assert _) in Hl; cbn [bind] in Hl; [|discriminate].
      eapply for_each_calls in Hl;
        [|intros; eapply draw_label_calls; eassumption].
      destruct Hl as (cs & Hcs & Hok). exists cs.
      split; [exact Hcs|]. split; [exact Hok | discriminate].
    - injection Hl as <-. exists []. cbn. auto. }
  destruct H1 as (cs & Hcs & Hok & Hnone).
  exists cols, cs.
  pose proof (output_calls_log st1 show win_name wait_time out_file) as Hout.
  cbv zeta in Hout. rewrite Hout, Hcs, Hparts.
  repeat split; auto. congruence.
Qed.

(** X9. For [k >= 1] boxes, one colour for all and no labels,
    [imshow_bboxes] returns: [mmcv.imshow_bboxes] receives the boxes as [k]
    single-row arrays in their order with [k] copies of the colour, and
    nothing else is called but the display and the file write that were
    asked for. *)
Theorem boxes_without_labels :
  forall (cv : Backend) (img : image) (bboxes : list bbox)
         (c text_color : color_spec cv) (thickness : Z) (font_scale : Q)
         (show : bool) (win_name : string) (wait_time : Z)
         (out_file : option string),
    bboxes <> [] ->
    imshow_bboxes cv img bboxes None (One c) text_color thickness font_scale
                  show win_name wait_time out_file
    = Ok {| buf := mmcv_imshow_bboxes cv img (map (fun b => [b]) bboxes)
                     (repeat (color_val cv c) (length bboxes)) thickness;
            calls := ImshowBboxes (length bboxes)
                                  (repeat (color_val cv c) (length bboxes))
                                  thickness
                     :: output_calls show win_name wait_time out_file |}.
Proof.
  intros cv img bboxes c text_color thickness font_scale show win_name
         wait_time out_file Hne.
  unfold imshow_bboxes. rewrite (np_split_singletons bboxes Hne).
  cbn [bind]. rewrite !length_map.
  rewrite (map_const_seq c bboxes 0), map_repeat.
  rewrite length_seq, Nat.eqb_refl. cbn [py_assert bind].
  unfold output_calls, log. destruct show, out_file; reflexivity.
Qed.

(** Two boxes in green, written to a file. *)
Lemma boxes_without_labels_witness :
  imshow_bboxes pixel_backend (black 4 4) [mkBbox 0 0 1 1; mkBbox 2 2 3 3]
                None (One (0, 255, 0)%Z) (255, 255, 255)%Z 1 (1 # 2) false
                "win"%string 0 (Some "out.png"%string)
  = Ok {| buf := black 4 4;
          calls := [ImshowBboxes 2 [(0, 255, 0); (0, 255, 0)]%Z 1;
                    Imwrite "out.png"%string] |}.
Proof.
  etransitivity.
  - apply (boxes_without_labels pixel_backend). discriminate.
  - reflexivity.
Defined.

(** X10. For [k >= 1] boxes and a colour list whose length differs from
    [k], [imshow_bboxes] fails with an AssertionError before anything is
    drawn, with or without labels. *)
Theorem color_list_mismatch_fails :
  forall (cv : Backend) (img : image) (bboxes : list bbox)
         (labels : option (one_or_list string))
         (colors : list (color_spec cv)) (text_color : color_spec cv)
         (thickness : Z) (font_scale : Q) (show : bool) (win_name : string)
         (wait_time : Z) (out_file : option string),
    bboxes <> [] -> length colors <> length bboxes ->
    imshow_bboxes cv img bboxes labels (Many colors) text_color thickness
                  font_scale show win_name wait_time out_file
    = Raise AssertionError.
Proof.
  intros cv img bboxes labels colors text_color thickness font_scale show
         win_name wait_time out_file Hne Hlen.
  unfold imshow_bboxes. rewrite (np_split_singletons bboxes Hne).
  cbn [bind]. rewrite !length_map.
  rewrite py_assert_neq by congruence. reflexivity.
Qed.

(** Two boxes and three colours. *)
Lemma color_list_mismatch_fails_witness :
  imshow_bboxes pixel_backend (black 4 4) [mkBbox 0 0 1 1; mkBbox 2 2 3 3]
                None (Many [(0, 255, 0); (0, 0, 255); (255, 0, 0)]%Z)
                (255, 255, 255)%Z 1 (1 # 2) false EmptyString 0 None
  = Raise AssertionError.
Proof.
  apply (color_list_mismatch_fails pixel_backend); discriminate.
Defined.

Lemma draw_label_text (cv : Backend) (text_color : color_spec cv)
      (thickness : Z) (font_scale : Q) (st : canvas)
      (item : list bbox * string * color) (st' : canvas) :
  draw_label cv text_color thickness font_scale st item = Ok st' ->
  exists cs,
    calls st' = calls st ++ cs
    /\ put_text_labels cs = [snd (fst item)] /\ length cs = 2%nat.
Proof.
  destruct item as [[box label] c]. unfold draw_label.
  destruct (np_index box 0) as [row|e]; cbn [bind]; [|discriminate].
  destruct (getTextSize cv label font_scale thickness)
    as [text_size text_baseline].
  intro H. injection H as <-.
  eexists. split; [reflexivity|]. split; reflexivity.
Qed.

Lemma label_loop_texts (cv : Backend) (text_color : color_spec cv)
      (thickness : Z) (font_scale : Q)
      (items : list (list bbox * string * color)) :
  forall st st' : canvas,
    for_each (draw_label cv text_color thickness font_scale) items st
    = Ok st' ->
    exists cs,
      calls st' = calls st ++ cs
      /\ put_text_labels cs = map (fun it => snd (fst it)) items
      /\ length cs = (2 * length items)%nat.
Proof.
  induction items as [|item items IH]; intros st st' H.
  - cbn in H. injection H as <-. exists []. rewrite app_nil_r. auto.
  - cbn [for_each] in H.
    destruct (draw_label cv text_color thickness font_scale st item)
      as [st1|e] eqn:E; cbn [bind] in H; [|discriminate].
    destruct (draw_label_text _ _ _ _ _ _ _ E) as (cs1 & Hc1 & Hl1 & Hn1).
    destruct (IH st1 st' H) as (cs2 & Hc2 & Hl2 & Hn2).
    exists (cs1 ++ cs2). rewrite Hc2, Hc1, app_assoc.
    split; [reflexivity|]. split.
    + unfold put_text_labels in *. rewrite flat_map_app, Hl1, Hl2.
      reflexivity.
    + rewrite length_app, Hn1, Hn2. cbn [length]. lia.
Qed.

Lemma zip3_labels {A C : Type} (a : list A) :
  forall (b : list string) (c : list C),
    length b = length a -> length c = length a ->
    map (fun it : A * string * C => snd (fst it)) (zip3 a b c) = b
    /\ length (zip3 a b c) = length a.
Proof.
  induction a as [|x a IH]; intros b c Hb Hc.
  - destruct b; [auto | discriminate].
  - destruct b as [|y b]; [discriminate|].
    destruct c as [|z c]; [discriminate|].
    cbn [zip3 map length fst snd].
    destruct (IH b c) as [Hm Hl]; [cbn in Hb; lia | cbn in Hc; lia |].
    rewrite Hm, Hl. auto.
Qed.

(** X11. A returning call of [imshow_bboxes] with labels has written one
    text per box, in box order: the labels of the list, or one copy of
    the single label per box.  Besides the call to mmcv and the output
    calls its log holds two calls per box. *)
Theorem labels_drawn_in_order :
  forall (cv : Backend) (img : image) (bboxes : list bbox)
         (labels : one_or_list string)
         (colors : one_or_list (color_spec cv)) (text_color : color_spec cv)
         (thickness : Z) (font_scale : Q) (show : bool) (win_name : string)
         (wait_time : Z) (out_file : option string) (st : canvas),
    imshow_bboxes cv img bboxes (Some labels) colors text_color thickness
                  font_scale show win_name wait_time out_file = Ok st ->
    put_text_labels (calls st)
    = match labels with
      | Many ls => ls
      | One s => repeat s (length bboxes)
      end
    /\ length (calls st)
       = (1 + 2 * length bboxes
          + length (output_calls show win_name wait_time out_file))%nat.
Proof.
  intros cv img bboxes labels colors text_color thickness font_scale show
         win_name wait_time out_file st H.
  unfold imshow_bboxes in H.
  destruct bboxes as [|b0 bs]; [discriminate|].
  set (bboxes := b0 :: bs) in *.
  rewrite (np_split_singletons bboxes ltac:(discriminate)) in H.
  cbn [bind] in H. rewrite !length_map in H.
  match type of H with
  | context [py_assert (Nat.eqb (length bboxes) (length ?c))] =>
      set (cols := c) in *;
      destruct (Nat.eqb (length bboxes) (length cols)) eqn:Ec
  end; cbn [py_assert bind] in H; [|discriminate].
  apply Nat.eqb_eq in Ec.
  match type of H with
  | context [py_assert (Nat.eqb (length ?l) (length bboxes))] =>
      set (lbls := l) in *;
      destruct (Nat.eqb (length lbls) (length bboxes)) eqn:El
  end; cbn [py_assert bind] in H; [|discriminate].
  apply Nat.eqb_eq in El.
  match type of H with
  | bind ?m _ = _ => destruct m as [st1|e] eqn:Hloop
  end; cbn [bind] in H; [|discriminate].
  injection H as <-.
  apply label_loop_texts in Hloop.
  destruct Hloop as (cs & Hcalls & Hlabels & Hcount).
  destruct (zip3_labels (map (fun b => [b]) bboxes) lbls
                        (map (color_val cv) cols)) as [Hm Hz].
  { rewrite length_map. exact El. }
  { rewrite !length_map. symmetry. exact Ec. }
  rewrite Hm in Hlabels. rewrite Hz, length_map in Hcount.
  assert (Hlbls : lbls = match labels with
                         | Many ls => ls
                         | One s => repeat s (length bboxes)
                         end).
  { subst lbls. destruct labels as [s|ls]; [|reflexivity].
    apply map_const_seq. }
  pose proof (output_calls_log st1 show win_name wait_time out_file) as Hout.
  cbv zeta in Hout. rewrite Hout, Hcalls. cbn [calls app]. split.
  - unfold put_text_labels in *. cbn [flat_map app].
    rewrite flat_map_app, Hlabels.
    fold (put_text_labels (output_calls show win_name wait_time out_file)).
    rewrite put_text_labels_output, app_nil_r. exact Hlbls.
  - cbn [length]. rewrite length_app, Hcount. lia.
Qed.

(** Two boxes labelled "a" and "b", one colour, shown in a window. *)
Lemma labels_drawn_in_order_witness :
  exists st,
    imshow_bboxes pixel_backend (black 4 4)
                  [mkBbox 0 0 1 1; mkBbox 2 2 3 3]
                  (Some (Many ["a"%string; "b"%string]))
                  (One (0, 255, 0)%Z) (255, 255, 255)%Z 1 (1 # 2) true
                  "win"%string 0 None = Ok st
    /\ put_text_labels (calls st) = ["a"%string; "b"%string]
    /\ length (calls st) = 6%nat.
Proof.
  eexists. split; [reflexivity|].
  apply (labels_drawn_in_order pixel_backend (black 4 4)
           [mkBbox 0 0 1 1; mkBbox 2 2 3 3]
           (Many ["a"%string; "b"%string]) (One (0, 255, 0)%Z)
           (255, 255, 255)%Z 1 (1 # 2) true "win"%string 0 None _ eq_refl).
Defined.

(** X12. Every filled label tag that a returning call of [imshow_bboxes]
    draws starts at or below the top edge of the image: the top of the tag
    is clamped to [y >= 0], however high the box lies and however tall the
    text is. *)
Theorem label_tags_start_inside :
  forall (cv : Backend) (img : image) (bboxes : list bbox)
         (labels : option (one_or_list string))
         (colors : one_or_list (color_spec cv)) (text_color : color_spec cv)
         (thickness : Z) (font_scale : Q) (show : bool) (win_name : string)
         (wait_time : Z) (out_file : option string) (st : canvas)
         (pt1 pt2 : point) (c : color),
    imshow_bboxes cv img bboxes labels colors text_color thickness font_scale
                  show win_name wait_time out_file = Ok st ->
    In (Rectangle pt1 pt2 c) (calls st) ->
    (0 <= snd pt1)%Z.
Proof.
  intros cv img bboxes labels colors text_color thickness font_scale show
         win_name wait_time out_file st pt1 pt2 c H Hin.
  destruct (imshow_bboxes_calls _ _ _ _ _ _ _ _ _ _ _ _ _ H)
    as (cols & cs & Hcalls & _ & Hok & _).
  rewrite Hcalls in Hin. destruct Hin as [Hin | Hin]; [discriminate|].
  apply in_app_or in Hin. destruct Hin as [Hin | Hin].
  - rewrite Forall_forall in Hok. exact (Hok _ Hin).
  - unfold output_calls in Hin. destruct show, out_file; cbn in Hin;
      intuition discriminate.
Qed.

(** A box at the top edge: the tag of its label starts at y = 0. *)
Lemma label_tags_start_inside_witness : (0 <= 0)%Z.
Proof.
  apply (label_tags_start_inside pixel_backend (black 4 4) [mkBbox 1 2 3 3]
           (Some (One "a"%string)) (One (0, 255, 0)%Z) (255, 255, 255)%Z
           1 (1 # 2) false EmptyString 0 None _
           (1, 0)%Z (9, 13)%Z (0, 255, 0)%Z eq_refl).
  right. left. reflexivity.
Defined.

(** X13. A returning call of [imshow_bboxes] displays the image exactly
    when [show] is set, in the window and with the wait time given, and
    writes it exactly to [out_file] when one is given; with [show] unset
    and no [out_file] it neither opens a window nor writes a file. *)
Theorem output_only_on_request :
  forall (cv : Backend) (img : image) (bboxes : list bbox)
         (labels : option (one_or_list string))
         (colors : one_or_list (color_spec cv)) (text_color : color_spec cv)
         (thickness : Z) (font_scale : Q) (show : bool) (win_name : string)
         (wait_time : Z) (out_file : option string) (st : canvas),
    imshow_bboxes cv img bboxes labels colors text_color thickness font_scale
                  show win_name wait_time out_file = Ok st ->
    (forall wn wt,
        In (Imshow wn wt) (calls st)
        <-> show = true /\ wn = win_name /\ wt = wait_time)
    /\ (forall f, In (Imwrite f) (calls st) <-> out_file = Some f).
Proof.
  intros cv img bboxes labels colors text_color thickness font_scale show
         win_name wait_time out_file st H.
  destruct (imshow_bboxes_calls _ _ _ _ _ _ _ _ _ _ _ _ _ H)
    as (cols & cs & Hcalls & _ & Hok & _).
  rewrite Hcalls. rewrite Forall_forall in Hok.
  split.
  - intros wn wt. split.
    + intros [Hin | Hin]; [discriminate|].
      apply in_app_or in Hin. destruct Hin as [Hin | Hin];
        [destruct (Hok _ Hin)|].
      unfold output_calls in Hin. destruct show, out_file; cbn in Hin;
        intuition (try discriminate; congruence).
    + intros (-> & -> & ->). right. apply in_or_app. right.
      left. reflexivity.
  - intro f. split.
    + intros [Hin | Hin]; [discriminate|].
      apply in_app_or in Hin. destruct Hin as [Hin | Hin];
        [destruct (Hok _ Hin)|].
      unfold output_calls in Hin. destruct show, out_file; cbn in Hin;
        intuition (try discriminate; congruence).
    + intros ->. right. apply in_or_app. right.
      unfold output_calls. apply in_or_app. right. left. reflexivity.
Qed.

(** One labelled box, shown and not written. *)
Lemma output_only_on_request_witness :
  exists st,
    imshow_bboxes pixel_backend (black 4 4) [mkBbox 1 2 3 3]
                  (Some (One "a"%string)) (One (0, 255, 0)%Z)
                  (255, 255, 255)%Z 1 (1 # 2) true "win"%string 5 None
    = Ok st
    /\ In (Imshow "win"%string 5) (calls st)
    /\ forall f, ~ In (Imwrite f) (calls st).
Proof.
  eexists. split; [reflexivity|].
  destruct (output_only_on_request pixel_backend (black 4 4) [mkBbox 1 2 3 3]
              (Some (One "a"%string)) (One (0, 255, 0)%Z)
              (255, 255, 255)%Z 1 (1 # 2) true "win"%string 5 None _ eq_refl)
    as [Hshow Hwrite].
  split.
  - apply Hshow. repeat split.
  - intros f Hin. apply Hwrite in Hin. discriminate.
Defined.

(** * Further properties of the 3D renderer *)

Section Panels3D.

Variable show_img : bool.
Variable skeleton : option (list (Z * Z)).
Variables (kc lc : option (list color)).
Variables (thr az lim dst el : Q).

Lemma draw_pose3d_panel (fig fig' : list panel) (idx : nat) (res : pose3d) :
  draw_pose3d show_img skeleton kc lc thr az lim dst el fig idx res = Ok fig' ->
  exists ax,
    fig' = fig ++ [PosePanel ax]
    /\ panel_of_pose show_img kc thr az lim dst el idx res ax.
Proof.
  unfold draw_pose3d, panel_of_pose.
  destruct (center (keypoints_3d res) thr) as [x_c y_c].
  destruct kc as [c|].
  - destruct (py_assert (Nat.eqb (length c) (length (keypoints_3d res))));
      cbn [bind]; [|discriminate].
    match goal with
    | |- bind ?m _ = _ -> _ => destruct m as [ls|e]; cbn [bind]; [|discriminate]
    end.
    intro H. injection H as <-. eexists. split; [reflexivity|].
    cbn. repeat split.
  - cbn [bind].
    match goal with
    | |- bind ?m _ = _ -> _ => destruct m as [ls|e]; cbn [bind]; [|discriminate]
    end.
    intro H. injection H as <-. eexists. split; [reflexivity|].
    cbn. repeat split.
Qed.

Lemma pose_loop_panels (pose_result : list pose3d) :
  forall (i : nat) (fig fig' : list panel),
    for_enumerate (draw_pose3d show_img skeleton kc lc thr az lim dst el)
                  i pose_result fig = Ok fig' ->
    exists axs,
      fig' = fig ++ map PosePanel axs
      /\ length axs = length pose_result
      /\ forall j res ax,
          nth_error pose_result j = Some res ->
          nth_error axs j = Some ax ->
          panel_of_pose show_img kc thr az lim dst el (i + j) res ax.
Proof.
  induction pose_result as [|res rest IH]; intros i fig fig' H.
  - cbn in H. injection H as <-. exists []. cbn. rewrite app_nil_r.
    split; [reflexivity|]. split; [reflexivity|].
    intros [|j] ? ? Hj; discriminate.
  - cbn [for_enumerate] in H.
    destruct (draw_pose3d show_img skeleton kc lc thr az lim dst el
                          fig i res) as [fig1|e] eqn:E;
      cbn [bind] in H; [|discriminate].
    apply draw_pose3d_panel in E. destruct E as (ax0 & -> & Hax0).
    apply IH in H. destruct H as (axs & -> & Hlen & Hnth).
    exists (ax0 :: axs). rewrite <- app_assoc. cbn [map app length].
    split; [reflexivity|]. split; [lia|].
    intros [|j] r ax Hr Hax; cbn in Hr, Hax.
    + injection Hr as <-. injection Hax as <-.
      rewrite Nat.add_0_r. exact Hax0.
    + replace (i + S j)%nat with (S i + j)%nat by lia.
      apply (Hnth j r ax Hr Hax).
Qed.

End Panels3D.

(** The panels of a returning call of [imshow_keypoints_3d]. *)
Lemma imshow_keypoints_3d_panels (pose_result : list pose3d)
      (img : option image) (skeleton : option (list (Z * Z)))
      (kc lc : option (list color)) (vis_height : Z)
      (thr az lim dst el : Q) (fig : figure) :
  imshow_keypoints_3d pose_result img skeleton kc lc vis_height thr
                      az lim dst el = Ok fig ->
  exists axs,
    panels fig = (if is_some img then [InputPanel 1] else [])
                 ++ map PosePanel axs
    /\ length axs = length pose_result
    /\ forall j res ax,
        nth_error pose_result j = Some res ->
        nth_error axs j = Some ax ->
        panel_of_pose (is_some img) kc thr az lim dst el j res ax.
Proof.
  unfold imshow_keypoints_3d. intro H.
  match type of H with
  | bind ?m _ = _ => destruct m as [ps|e] eqn:E; cbn [bind] in H;
                     [|discriminate]
  end.
  injection H as <-. cbn [panels].
  apply pose_loop_panels in E. exact E.
Qed.

(** X14. A returning call of [imshow_keypoints_3d] fills the subplot
    slots 1, 2, ..., [num_axis] from left to right, each exactly once: the
    reference image, when given, takes slot 1 and the poses follow in
    their order. *)
Theorem panels_fill_slots_in_order :
  forall (pose_result : list pose3d) (img : option image)
         (skeleton : option (list (Z * Z))) (kc lc : option (list color))
         (vis_height : Z) (thr az lim dst el : Q) (fig : figure),
    imshow_keypoints_3d pose_result img skeleton kc lc vis_height thr
                        az lim dst el = Ok fig ->
    map panel_idx (panels fig) = seq 1 (num_axis pose_result img).
Proof.
  intros pose_result img skeleton kc lc vis_height thr az lim dst el fig H.
  apply imshow_keypoints_3d_panels in H.
  destruct H as (axs & -> & Hlen & Hnth).
  unfold num_axis.
  assert (Hidx : forall off,
             (forall j res ax,
                 nth_error pose_result j = Some res ->
                 nth_error axs j = Some ax -> ax_idx ax = (off + j)%nat) ->
             map panel_idx (map PosePanel axs)
             = seq off (length pose_result)).
  { clear Hnth. revert axs Hlen.
    induction pose_result as [|res rest IH]; intros axs Hlen off Hoff.
    - destruct axs; [reflexivity | discriminate].
    - destruct axs as [|ax axs]; [discriminate|].
      cbn [map length seq panel_idx].
      rewrite (Hoff 0%nat res ax eq_refl eq_refl), Nat.add_0_r. f_equal.
      apply IH; [cbn in Hlen; lia|].
      intros j r a Hr Ha.
      rewrite (Hoff (S j) r a Hr Ha). lia. }
  destruct img as [i|]; cbn [is_some app map panel_idx].
  - rewrite Nat.add_1_r. cbn [seq]. f_equal.
    apply Hidx. intros j res ax Hr Ha.
    destruct (Hnth j res ax Hr Ha) as (Hi & _). cbn [is_some] in Hi.
    rewrite Hi. lia.
  - apply Hidx. intros j res ax Hr Ha.
    destruct (Hnth j res ax Hr Ha) as (Hi & _). cbn [is_some] in Hi.
    rewrite Hi. lia.
Qed.

(** Two poses beside a reference image: the slots 1, 2, 3. *)
Lemma panels_fill_slots_in_order_witness :
  exists fig,
    imshow_keypoints_3d [mkPose3d [] None; mkPose3d [] None]
                        (Some (black 4 4)) None None None 400 (3 # 10)
                        70 (17 # 10) 10 15 = Ok fig
    /\ map panel_idx (panels fig) = [1; 2; 3]%nat.
Proof.
  eexists. split; [vm_compute; reflexivity|].
  apply (panels_fill_slots_in_order
           [mkPose3d [] None; mkPose3d [] None] (Some (black 4 4))
           None None None 400 (3 # 10) 70 (17 # 10) 10 15 _ eq_refl).
Defined.

(** X15. Every 3D panel of a returning call of [imshow_keypoints_3d] is
    shown over the same height and under the same view: its z range is
    [0, axis_limit] and its elevation, azimuth and distance are the ones
    given, whatever the keypoints of the pose are. *)
Theorem panels_share_cube_and_view :
  forall (pose_result : list pose3d) (img : option image)
         (skeleton : option (list (Z * Z))) (kc lc : option (list color))
         (vis_height : Z) (thr az lim dst el : Q) (fig : figure)
         (ax : axes3d),
    imshow_keypoints_3d pose_result img skeleton kc lc vis_height thr
                        az lim dst el = Ok fig ->
    In (PosePanel ax) (panels fig) ->
    zlim3d ax = (0, lim)%Q
    /\ elev ax = el /\ azim ax = az /\ dist ax = dst.
Proof.
  intros pose_result img skeleton kc lc vis_height thr az lim dst el fig ax
         H Hin.
  apply imshow_keypoints_3d_panels in H.
  destruct H as (axs & Hp & Hlen & Hnth).
  rewrite Hp in Hin. apply in_app_or in Hin.
  destruct Hin as [Hin | Hin];
    [destruct (is_some img); cbn in Hin; intuition discriminate|].
  apply in_map_iff in Hin. destruct Hin as (ax' & Heq & Hin).
  injection Heq as ->.
  apply In_nth_error in Hin. destruct Hin as [j Hj].
  destruct (nth_error pose_result j) as [res|] eqn:Hr.
  - destruct (Hnth j res ax Hr Hj)
      as (_ & He & Ha & Hd & _ & _ & Hz & _).
    repeat split; assumption.
  - apply nth_error_None in Hr.
    assert (j < length axs)%nat by (apply nth_error_Some; congruence).
    lia.
Qed.

(** A pose around (100, -40): its panel spans z from 0 to 17/10 under the
    view given. *)
Lemma panels_share_cube_and_view_witness :
  exists fig ax,
    imshow_keypoints_3d [mkPose3d [mkKpt3d 100 (-40) 0 1] None] None None
                        None None 400 (3 # 10) 70 (17 # 10) 10 15 = Ok fig
    /\ panels fig = [PosePanel ax]
    /\ zlim3d ax = (0, 17 # 10)%Q
    /\ elev ax = 15%Q.
Proof.
  eexists. eexists. split; [vm_compute; reflexivity|].
  split; [reflexivity|].
  match goal with
  | |- zlim3d ?a = _ /\ _ =>
      destruct (panels_share_cube_and_view
                  [mkPose3d [mkKpt3d 100 (-40) 0 1] None] None None
                  None None 400 (3 # 10) 70 (17 # 10) 10 15 _ a eq_refl
                  (or_introl eq_refl)) as (Hz & He & _)
  end.
  split; [exact Hz | exact He].
Defined.



Lemma np_mask_In_inv {A : Type} (a : list A) (mask : list bool) (v : A) :
  In v (np_mask a mask) ->
  exists i, nth_error a i = Some v /\ nth_error mask i = Some true.
Proof.
  revert mask. induction a as [|x a IH]; intros mask Hin; [contradiction|].
  destruct mask as [|b mask]; [contradiction|].
  cbn [np_mask] in Hin. destruct b.
  - destruct Hin as [-> | Hin]; [exists 0%nat; auto|].
    destruct (IH mask Hin) as (i & Ha & Hm). exists (S i). auto.
  - destruct (IH mask Hin) as (i & Ha & Hm). exists (S i). auto.
Qed.

Lemma nth_error_combine_inv {A B : Type} (a : list A) (b : list B) (i : nat)
      (x : A) (y : B) :
  nth_error (combine a b) i = Some (x, y) ->
  nth_error a i = Some x /\ nth_error b i = Some y.
Proof.
  revert b i. induction a as [|x0 a IH]; intros b i H;
    [destruct i; discriminate|].
  destruct b as [|y0 b]; [destruct i; discriminate|].
  destruct i as [|i]; cbn in *.
  - injection H as -> ->. auto.
  - apply IH, H.
Qed.

Lemma np_mask_combine_length {A B : Type} (g : A -> bool) (a : list A) :
  forall b : list B,
    length b = length a ->
    length (np_mask (combine a b) (map g a)) = length (filter g a).
Proof.
  induction a as [|x a IH]; intros b Hlen; [reflexivity|].
  destruct b as [|y b]; [discriminate|].
  cbn [combine map np_mask filter]. destruct (g x); cbn [length];
    rewrite IH by (cbn in Hlen; lia); reflexivity.
Qed.

(** X17. [imshow_keypoints_3d] never scatters a keypoint below the
    threshold: on a score array whose dtype represents the threshold (so
    that the comparison is exact) and with one colour per keypoint, every
    point handed to [ax.scatter] is the (x, y, z) of a keypoint with
    [score >= kpt_score_thr], in the colour of that keypoint's index, and
    the number of scattered points is the number of such keypoints. *)
Theorem scatter_only_valid_keypoints :
  forall (d : dtype) (kpts : list keypoint3d) (kc : list color) (thr : Q),
    scores_exact d thr kpts ->
    length kc = length kpts ->
    (forall p,
        In p (scatter_points kpts kc (valid_mask kpts thr)) ->
        exists i k c,
          nth_error kpts i = Some k /\ nth_error kc i = Some c
          /\ (thr <= score3 k)%Q
          /\ p = (x3 k, y3 k, z3 k, to_rgb01 c))
    /\ length (scatter_points kpts kc (valid_mask kpts thr))
       = length (filter (fun k => Qle_bool thr (score3 k)) kpts).
Proof.
  intros d kpts kc thr _ Hlen. unfold scatter_points, valid_mask. split.
  - intros p Hin. apply in_map_iff in Hin.
    destruct Hin as ([k rgb] & <- & Hin).
    apply np_mask_In_inv in Hin. destruct Hin as (i & Hc & Hm).
    apply nth_error_combine_inv in Hc. destruct Hc as [Hk Hrgb].
    rewrite nth_error_map in Hrgb.
    destruct (nth_error kc i) as [c|] eqn:Hc; [|discriminate].
    injection Hrgb as <-.
    rewrite nth_error_map, Hk in Hm. injection Hm as Hm.
    exists i, k, c. repeat split; auto. apply Qle_bool_iff, Hm.
  - rewrite length_map. apply np_mask_combine_length.
    rewrite length_map. exact Hlen.
Qed.

(** float32 scores 1/4, 1/2 and 3/4 against the threshold 1/2: two
    points. *)
Lemma scatter_only_valid_keypoints_witness :
  length (scatter_points
            [mkKpt3d 0 0 0 (1 # 4); mkKpt3d 1 1 1 (1 # 2);
             mkKpt3d 2 2 2 (3 # 4)]
            [(255, 0, 0); (0, 255, 0); (0, 0, 255)]%Z
            (valid_mask [mkKpt3d 0 0 0 (1 # 4); mkKpt3d 1 1 1 (1 # 2);
                         mkKpt3d 2 2 2 (3 # 4)] (1 # 2)))
  = 2%nat.
Proof.
  apply (proj2 (scatter_only_valid_keypoints float32
                  [mkKpt3d 0 0 0 (1 # 4); mkKpt3d 1 1 1 (1 # 2);
                   mkKpt3d 2 2 2 (3 # 4)]
                  [(255, 0, 0); (0, 255, 0); (0, 0, 255)]%Z (1 # 2)
                  ltac:(split; [dyadic 1%Z (-1)%Z|];
                        apply Forall_cons; [dyadic 1%Z (-2)%Z|];
                        apply Forall_cons; [dyadic 1%Z (-1)%Z|];
                        apply Forall_cons; [dyadic 3%Z (-2)%Z|];
                        apply Forall_nil)
                  eq_refl)).
Defined.

Lemma plot_limb_out_of_range (kpts : list keypoint3d) (thr : Q)
      (limb : Z * Z) (c : color) :
  ~ joint_in_range (length kpts) (fst limb)
  \/ ~ joint_in_range (length kpts) (snd limb) ->
  plot_limb kpts thr limb c = Raise IndexError.
Proof.
  intro H. unfold plot_limb. cbn [fst snd].
  destruct (np_index kpts (fst limb - 1)) as [k1|e] eqn:E1; cbn [bind].
  - destruct H as [H | H].
    + rewrite (np_index_out_of_range kpts _ H) in E1. discriminate.
    + rewrite (np_index_out_of_range kpts _ H). reflexivity.
  - unfold np_index in E1.
    destruct (_ && _)%bool in E1; [|congruence].
    destruct (nth_error _ _) in E1; [discriminate | congruence].
Qed.

(** X18. Every line that the limb loop of [imshow_keypoints_3d] plots joins
    two keypoints of the pose whose scores both strictly exceed the
    threshold, named by a limb of the skeleton and in that limb's colour;
    the loop plots at most one line per limb. *)
Theorem plotted_limbs_are_visible :
  forall (kpts : list keypoint3d) (thr : Q) (limbs : list ((Z * Z) * color))
         (ls : list line3d),
    plot_limbs kpts thr limbs = Ok ls ->
    (forall ln,
        In ln ls ->
        exists limb c k1 k2,
          In (limb, c) limbs
          /\ np_index kpts (fst limb - 1) = Ok k1
          /\ np_index kpts (snd limb - 1) = Ok k2
          /\ (thr < score3 k1)%Q /\ (thr < score3 k2)%Q
          /\ ln = {| xs_3d := (x3 k1, x3 k2);
                     ys_3d := (y3 k1, y3 k2);
                     zs_3d := (z3 k1, z3 k2);
                     line_color := to_rgb01 c |})
    /\ (length ls <= length limbs)%nat.
Proof.
  intros kpts thr limbs. induction limbs as [|[limb c] rest IH]; intros ls H.
  - cbn in H. injection H as <-. split; [contradiction | cbn; lia].
  - cbn [plot_limbs] in H.
    destruct (plot_limb kpts thr limb c) as [l|e] eqn:El;
      cbn [bind] in H; [|discriminate].
    destruct (plot_limbs kpts thr rest) as [ls0|e] eqn:Er;
      cbn [bind] in H; [|discriminate].
    injection H as <-.
    destruct (IH ls0 eq_refl) as [Hin Hlen].
    assert (Hrest : forall ln, In ln ls0 ->
              exists limb0 c0 k1 k2,
                In (limb0, c0) ((limb, c) :: rest)
                /\ np_index kpts (fst limb0 - 1) = Ok k1
                /\ np_index kpts (snd limb0 - 1) = Ok k2
                /\ (thr < score3 k1)%Q /\ (thr < score3 k2)%Q
                /\ ln = {| xs_3d := (x3 k1, x3 k2);
                           ys_3d := (y3 k1, y3 k2);
                           zs_3d := (z3 k1, z3 k2);
                           line_color := to_rgb01 c0 |}).
    { intros ln Hl.
      destruct (Hin ln Hl) as (limb0 & c0 & k1 & k2 & Hi & Hrest).
      exists limb0, c0, k1, k2. split; [right; exact Hi | exact Hrest]. }
    destruct l as [ln0|]; [|split; [exact Hrest | cbn [length]; lia]].
    split; [|cbn [length]; lia].
    intros ln [<- | Hl]; [|apply Hrest, Hl].
    unfold plot_limb in El. cbn [fst snd] in El.
    destruct (np_index kpts (fst limb - 1)) as [k1|e] eqn:E1;
      cbn [bind] in El; [|discriminate].
    destruct (np_index kpts (snd limb - 1)) as [k2|e] eqn:E2;
      cbn [bind] in El; [|discriminate].
    rewrite Qltb_py_min in El.
    destruct (Qltb thr (score3 k1)) eqn:Q1; [|discriminate].
    destruct (Qltb thr (score3 k2)) eqn:Q2; [|discriminate].
    cbn [andb] in El. injection El as <-.
    exists limb, c, k1, k2.
    repeat split; auto; try (left; reflexivity); apply Qltb_true_iff;
      assumption.
Qed.

(** Three keypoints, the third below the threshold: of the limbs (1, 2)
    and (2, 3) only the first is plotted. *)
Lemma plotted_limbs_are_visible_witness :
  exists ls,
    plot_limbs [mkKpt3d 0 0 0 1; mkKpt3d 1 1 1 1; mkKpt3d 2 2 2 (1 # 10)]
               (1 # 2) [((1, 2)%Z, (0, 255, 0)%Z); ((2, 3)%Z, (0, 0, 255)%Z)]
    = Ok ls
    /\ (length ls <= 2)%nat.
Proof.
  eexists. split; [vm_compute; reflexivity|].
  apply (proj2 (plotted_limbs_are_visible
                  [mkKpt3d 0 0 0 1; mkKpt3d 1 1 1 1; mkKpt3d 2 2 2 (1 # 10)]
                  (1 # 2)
                  [((1, 2)%Z, (0, 255, 0)%Z); ((2, 3)%Z, (0, 0, 255)%Z)]
                  _ eq_refl)).
Defined.

(** X20. [imshow_keypoints_3d] with at least one pose fails with an
    AssertionError when [pose_kpt_color] is given and its length differs
    from the number of keypoints of the first pose, and when skeleton and
    [pose_limb_color] are both given with different lengths while the
    keypoint colours, if any, fit the first pose. *)
Theorem length_mismatch_fails_3d :
  forall (res : pose3d) (rest : list pose3d) (img : option image)
         (vis_height : Z) (thr az lim dst el : Q),
    (forall (skeleton : option (list (Z * Z))) (c : list color)
            (lc : option (list color)),
        length c <> length (keypoints_3d res) ->
        imshow_keypoints_3d (res :: rest) img skeleton (Some c) lc vis_height
                            thr az lim dst el = Raise AssertionError)
    /\ (forall (skel : list (Z * Z)) (kc : option (list color))
               (l : list color),
           (forall c, kc = Some c -> length c = length (keypoints_3d res)) ->
           length l <> length skel ->
           imshow_keypoints_3d (res :: rest) img (Some skel) kc (Some l)
                               vis_height thr az lim dst el
           = Raise AssertionError).
Proof.
  intros res rest img vis_height thr az lim dst el. split.
  - intros skeleton c lc H.
    unfold imshow_keypoints_3d. cbn [for_enumerate]. unfold draw_pose3d at 1.
    destruct (center (keypoints_3d res) thr) as [x_c y_c].
    rewrite (py_assert_neq _ _ H). reflexivity.
  - intros skel kc l Hkc H.
    unfold imshow_keypoints_3d. cbn [for_enumerate]. unfold draw_pose3d at 1.
    destruct (center (keypoints_3d res) thr) as [x_c y_c].
    destruct kc as [c|].
    + rewrite (py_assert_eq _ _ (Hkc c eq_refl)). cbn [bind].
      rewrite (py_assert_neq _ _ H). reflexivity.
    + cbn [bind]. rewrite (py_assert_neq _ _ H). reflexivity.
Qed.

(** One keypoint against two colours; one limb against no colour. *)
Lemma length_mismatch_fails_3d_witness :
  imshow_keypoints_3d [mkPose3d [mkKpt3d 0 0 0 1] None] None None
                      (Some [(255, 0, 0); (0, 255, 0)]%Z) None 400 (3 # 10)
                      70 (17 # 10) 10 15 = Raise AssertionError
  /\ imshow_keypoints_3d [mkPose3d [mkKpt3d 0 0 0 1] None] None
                         (Some [(1, 1)%Z]) None (Some []) 400 (3 # 10)
                         70 (17 # 10) 10 15 = Raise AssertionError.
Proof.
  destruct (length_mismatch_fails_3d (mkPose3d [mkKpt3d 0 0 0 1] None) []
              None 400 (3 # 10) 70 (17 # 10) 10 15) as [H1 H2].
  split.
  - apply H1. discriminate.
  - apply H2; discriminate.
Defined.

(** X21. In [imshow_keypoints_3d] a joint index outside [1 - K, K] in the
    first limb raises IndexError in the first pose, whatever the scores
    are; no figure is returned. *)
Theorem limb_3d_index_out_of_range_raises :
  forall (res : pose3d) (rest : list pose3d) (img : option image)
         (limb : Z * Z) (limbs : list (Z * Z)) (kc : option (list color))
         (c : color) (cs : list color) (vis_height : Z)
         (thr az lim dst el : Q),
    (forall k, kc = Some k -> length k = length (keypoints_3d res)) ->
    length cs = length limbs ->
    ~ joint_in_range (length (keypoints_3d res)) (fst limb)
    \/ ~ joint_in_range (length (keypoints_3d res)) (snd limb) ->
    imshow_keypoints_3d (res :: rest) img (Some (limb :: limbs)) kc
                        (Some (c :: cs)) vis_height thr az lim dst el
    = Raise IndexError.
Proof.
  intros res rest img limb limbs kc c cs vis_height thr az lim dst el
         Hkc Hlen Hout.
  unfold imshow_keypoints_3d. cbn [for_enumerate]. unfold draw_pose3d at 1.
  destruct (center (keypoints_3d res) thr) as [x_c y_c].
  assert (Hl : length (c :: cs) = length (limb :: limbs))
    by (cbn [length]; lia).
  destruct kc as [k|].
  - rewrite (py_assert_eq _ _ (Hkc k eq_refl)). cbn [bind].
    rewrite (py_assert_eq _ _ Hl). cbn [bind combine plot_limbs].
    rewrite (plot_limb_out_of_range _ _ _ _ Hout). reflexivity.
  - cbn [bind]. rewrite (py_assert_eq _ _ Hl). cbn [bind combine plot_limbs].
    rewrite (plot_limb_out_of_range _ _ _ _ Hout). reflexivity.
Qed.

(** Two keypoints and the limb (1, 3). *)
Lemma limb_3d_index_out_of_range_raises_witness :
  imshow_keypoints_3d [mkPose3d [mkKpt3d 0 0 0 0; mkKpt3d 1 1 1 0] None] None
                      (Some [(1, 3)%Z]) None (Some [(0, 255, 0)%Z]) 400
                      (3 # 10) 70 (17 # 10) 10 15
  = Raise IndexError.
Proof.
  apply limb_3d_index_out_of_range_raises.
  - discriminate.
  - reflexivity.
  - right. unfold joint_in_range. cbn. lia.
Defined.

(** X22. In [imshow_keypoints_3d], as in the 2D renderer, the joint index
    0 of a limb names the last keypoint of the pose: the limb step for
    (0, j) is the limb step for (K, j), and for (j, 0) that for (j, K),
    with K the number of keypoints. *)
Theorem limb_3d_index_zero_is_last :
  forall (kpts : list keypoint3d) (thr : Q) (j : Z) (c : color),
    plot_limb kpts thr (0, j)%Z c
    = plot_limb kpts thr (Z.of_nat (length kpts), j) c
    /\ plot_limb kpts thr (j, 0)%Z c
       = plot_limb kpts thr (j, Z.of_nat (length kpts)) c.
Proof.
  intros kpts thr j c. unfold plot_limb. cbn [fst snd].
  rewrite np_index_len. split; reflexivity.
Qed.

(** * Drawing poses in several calls *)

Lemma log_after_calls (cs : list cv_call) (st : canvas) (b : image)
      (new : list cv_call) :
  log (after_calls cs st) b new = after_calls cs (log st b new).
Proof.
  unfold log, after_calls. cbn [buf calls]. rewrite app_assoc. reflexivity.
Qed.

Lemma for_enumerate_after {A : Type}
      (body : canvas -> nat -> A -> result canvas) (cs : list cv_call) :
  (forall st i a, body (after_calls cs st) i a = lift_after cs (body st i a)) ->
  forall (l : list A) (i : nat) (st : canvas),
    for_enumerate body i l (after_calls cs st)
    = lift_after cs (for_enumerate body i l st).
Proof.
  intros Hbody l. induction l as [|a l IH]; intros i st; [reflexivity|].
  cbn [for_enumerate]. rewrite Hbody.
  destruct (body st i a) as [st1|e]; cbn [lift_after bind]; [apply IH|].
  reflexivity.
Qed.

Lemma for_each_after {A : Type} (body : canvas -> A -> result canvas)
      (cs : list cv_call) :
  (forall st a, body (after_calls cs st) a = lift_after cs (body st a)) ->
  forall (l : list A) (st : canvas),
    for_each body l (after_calls cs st) = lift_after cs (for_each body l st).
Proof.
  intros Hbody l. induction l as [|a l IH]; intro st; [reflexivity|].
  cbn [for_each]. rewrite Hbody.
  destruct (body st a) as [st1|e]; cbn [lift_after bind]; [apply IH|].
  reflexivity.
Qed.

Lemma for_each_app {A St : Type} (body : St -> A -> result St)
      (l1 l2 : list A) (st : St) :
  for_each body (l1 ++ l2) st
  = st1 <- for_each body l1 st ;; for_each body l2 st1.
Proof.
  revert st. induction l1 as [|a l1 IH]; intro st; [reflexivity|].
  cbn [app for_each]. destruct (body st a) as [st1|e]; cbn [bind];
    [apply IH | reflexivity].
Qed.

Section After2D.

Variable cv : Backend.
Variables (img_h0 img_w0 : Z) (thr : Q) (radius thickness : Z) (w : bool).
Variable cs : list cv_call.

Lemma draw_kpt_after (kc : list color) (st : canvas) (kid : nat)
      (kpt : keypoint) :
  draw_kpt cv thr radius w kc (after_calls cs st) kid kpt
  = lift_after cs (draw_kpt cv thr radius w kc st kid kpt).
Proof.
  unfold draw_kpt. destruct (Qltb thr (kscore kpt)); [|reflexivity].
  destruct (py_getitem kc kid) as [rgb|e];
    [|destruct w; reflexivity].
  destruct w; cbn [bind lift_after]; rewrite log_after_calls; reflexivity.
Qed.

Lemma draw_limb_after (kpts : list keypoint) (lc : list color) (st : canvas)
      (sk_id : nat) (sk : Z * Z) :
  draw_limb cv img_h0 img_w0 thr thickness w kpts lc (after_calls cs st)
            sk_id sk
  = lift_after cs
      (draw_limb cv img_h0 img_w0 thr thickness w kpts lc st sk_id sk).
Proof.
  unfold draw_limb.
  destruct (np_index kpts (fst sk - 1)) as [k1|e]; [|reflexivity].
  destruct (np_index kpts (snd sk - 1)) as [k2|e]; [|reflexivity].
  cbn [bind].
  match goal with |- context [if ?c then _ else _] => destruct c end;
    [|reflexivity].
  destruct (py_getitem lc sk_id) as [rgb|e]; [|reflexivity].
  destruct w; cbn [bind lift_after]; rewrite log_after_calls; reflexivity.
Qed.

Lemma draw_pose_after (skeleton : option (list (Z * Z)))
      (kc lc : option (list color)) (st : canvas) (kpts : list keypoint) :
  draw_pose cv img_h0 img_w0 thr radius thickness w skeleton kc lc
            (after_calls cs st) kpts
  = lift_after cs
      (draw_pose cv img_h0 img_w0 thr radius thickness w skeleton kc lc
                 st kpts).
Proof.
  unfold draw_pose.
  assert (H1 : match kc with
               | Some c =>
                   _ <- py_assert (Nat.eqb (length c) (length kpts)) ;;
                   for_enumerate (draw_kpt cv thr radius w c) 0 kpts
                                 (after_calls cs st)
               | None => Ok (after_calls cs st)
               end
               = lift_after cs
                   match kc with
                   | Some c =>
                       _ <- py_assert (Nat.eqb (length c) (length kpts)) ;;
                       for_enumerate (draw_kpt cv thr radius w c) 0 kpts st
                   | None => Ok st
                   end).
  { destruct kc as [c|]; [|reflexivity].
    destruct (py_assert _); [|reflexivity]. cbn [bind].
    apply for_enumerate_after. intros. apply draw_kpt_after. }
  rewrite H1.
  match goal with
  | |- bind (lift_after cs ?m) _ = _ => destruct m as [st1|e]
  end; [|reflexivity].
  cbn [lift_after bind].
  destruct skeleton as [skel|]; [destruct lc as [l|]|]; try reflexivity.
  destruct (py_assert _); [|reflexivity]. cbn [bind].
  apply for_enumerate_after. intros. apply draw_limb_after.
Qed.

End After2D.

(** X23. Drawing poses with [imshow_keypoints] in two calls, the second
    on the buffer the first returned, is drawing them in one call: when
    both calls return and the first kept the image size, the call on the
    concatenated poses returns the second buffer, and its log is the log
    of the first followed by the log of the second. *)
Theorem poses_compose :
  forall (cv : Backend) (img : image) (poses1 poses2 : list (list keypoint))
         (skeleton : option (list (Z * Z))) (thr : Q)
         (kc lc : option (list color)) (radius thickness : Z) (w : bool)
         (st1 st2 : canvas),
    imshow_keypoints cv img poses1 skeleton thr kc lc radius thickness w
    = Ok st1 ->
    img_h (buf st1) = img_h img -> img_w (buf st1) = img_w img ->
    imshow_keypoints cv (buf st1) poses2 skeleton thr kc lc radius thickness w
    = Ok st2 ->
    imshow_keypoints cv img (poses1 ++ poses2) skeleton thr kc lc
                     radius thickness w
    = Ok {| buf := buf st2; calls := calls st1 ++ calls st2 |}.
Proof.
  intros cv img poses1 poses2 skeleton thr kc lc radius thickness w st1 st2
         H1 Hh Hw H2.
  unfold imshow_keypoints in *. rewrite for_each_app, H1. cbn [bind].
  rewrite Hh, Hw in H2.
  replace st1 with (after_calls (calls st1) {| buf := buf st1; calls := [] |})
    at 1
    by (unfold after_calls; cbn [buf calls]; rewrite app_nil_r;
        destruct st1; reflexivity).
  rewrite (for_each_after _ (calls st1))
    by (intros; apply draw_pose_after).
  rewrite H2. reflexivity.
Qed.

(** One pose, then another, on a black 4 x 4 image. *)
Lemma poses_compose_witness :
  imshow_keypoints pixel_backend (black 4 4)
                   ([[mkKpt 1 1 1]] ++ [[mkKpt 2 3 1]]) None (1 # 2)
                   (Some [(0, 0, 255)%Z]) None 4 1 false
  = Ok {| buf := put_pixel (put_pixel (black 4 4) (1, 1)%Z (0, 0, 255)%Z)
                           (2, 3)%Z (0, 0, 255)%Z;
          calls := [Circle Img (1, 1)%Z 4 (0, 0, 255)%Z]
                   ++ [Circle Img (2, 3)%Z 4 (0, 0, 255)%Z] |}.
Proof.
  apply (poses_compose pixel_backend (black 4 4) [[mkKpt 1 1 1]]
           [[mkKpt 2 3 1]] None (1 # 2) (Some [(0, 0, 255)%Z]) None 4 1
           false
           {| buf := put_pixel (black 4 4) (1, 1)%Z (0, 0, 255)%Z;
              calls := [Circle Img (1, 1)%Z 4 (0, 0, 255)%Z] |}
           {| buf := put_pixel (put_pixel (black 4 4) (1, 1)%Z (0, 0, 255)%Z)
                               (2, 3)%Z (0, 0, 255)%Z;
              calls := [Circle Img (2, 3)%Z 4 (0, 0, 255)%Z] |});
    reflexivity.
Defined.

(** * Visible keypoints in a whole call *)

Section VisibleCircles.

Variable cv : Backend.
Variables (img_h0 img_w0 : Z) (thr : Q) (radius thickness : Z) (w : bool).
Variable skeleton : option (list (Z * Z)).
Variables (kc : list color) (lc : option (list color)).

Let circle_of (kpt : keypoint) (rgb : color) : cv_call :=
  Circle (if w then ImgCopy else Img) (py_int (kx kpt), py_int (ky kpt))
         radius rgb.

Lemma draw_pose_circles (st st' : canvas) (kpts : list keypoint) :
  draw_pose cv img_h0 img_w0 thr radius thickness w skeleton (Some kc) lc
            st kpts = Ok st' ->
  exists cs,
    calls st' = calls st ++ cs
    /\ forall j kpt rgb,
        nth_error kpts j = Some kpt -> nth_error kc j = Some rgb ->
        (thr < kscore kpt)%Q -> In (circle_of kpt rgb) cs.
Proof.
  unfold draw_pose. intro H.
  destruct (Nat.eqb (length kc) (length kpts)) eqn:El;
    cbn [py_assert bind] in H; [|discriminate].
  apply Nat.eqb_eq in El.
  destruct (kpt_loop_circles cv thr radius w kc kpts 0 st ltac:(lia))
    as (st1 & cs1 & Hrun & Hcalls & Hin).
  rewrite Hrun in H. cbn [bind] in H.
  assert (H2 : exists cs2, calls st' = calls st1 ++ cs2).
  { destruct skeleton as [skel|]; [destruct lc as [l|]|];
      try (injection H as <-; exists []; rewrite app_nil_r; reflexivity).
    destruct (py_assert (Nat.eqb (length l) (length skel)));
      cbn [bind] in H; [|discriminate].
    eapply (for_enumerate_calls (fun _ => True)) in H.
    - destruct H as (cs2 & Hc2 & _). eauto.
    - intros s0 i0 a0 s1 Hs.
      destruct (draw_limb_calls cv img_h0 img_w0 thr thickness w kpts l s0 i0
                                a0 s1 Hs) as (cs & Hcs & _).
      exists cs. split; [exact Hcs|].
      apply Forall_forall. intros; exact I. }
  destruct H2 as [cs2 Hc2].
  exists (cs1 ++ cs2). rewrite Hc2, Hcalls, app_assoc.
  split; [reflexivity|].
  intros j kpt rgb Hk Hr Hs. apply in_or_app. left.
  apply (Hin j kpt rgb Hk Hr Hs).
Qed.

Lemma pose_loop_circles (pose_result : list (list keypoint)) :
  forall st st' : canvas,
    for_each (draw_pose cv img_h0 img_w0 thr radius thickness w skeleton
                        (Some kc) lc) pose_result st = Ok st' ->
    exists cs,
      calls st' = calls st ++ cs
      /\ forall kpts j kpt rgb,
          In kpts pose_result ->
          nth_error kpts j = Some kpt -> nth_error kc j = Some rgb ->
          (thr < kscore kpt)%Q -> In (circle_of kpt rgb) cs.
Proof.
  induction pose_result as [|kpts0 rest IH]; intros st st' H.
  - cbn in H. injection H as <-. exists []. rewrite app_nil_r.
    split; [reflexivity|]. intros ? ? ? ? [].
  - cbn [for_each] in H.
    destruct (draw_pose cv img_h0 img_w0 thr radius thickness w skeleton
                        (Some kc) lc st kpts0) as [st1|e] eqn:E;
      cbn [bind] in H; [|discriminate].
    destruct (draw_pose_circles st st1 kpts0 E) as (cs1 & Hc1 & Hin1).
    destruct (IH st1 st' H) as (cs2 & Hc2 & Hin2).
    exists (cs1 ++ cs2). rewrite Hc2, Hc1, app_assoc.
    split; [reflexivity|].
    intros kpts j kpt rgb [<- | Hin] Hk Hr Hs; apply in_or_app.
    + left. apply (Hin1 j kpt rgb Hk Hr Hs).
    + right. apply (Hin2 kpts j kpt rgb Hin Hk Hr Hs).
Qed.

End VisibleCircles.

(** C9. In [imshow_keypoints], with keypoint colours configured (one per
    keypoint of every pose) and arguments that cv2 accepts (centres and
    radius that fit a C int, a non-negative radius, 8-bit colours; a
    skeleton, if limbs are drawn, whose joints resolve), the call returns
    and has drawn a filled circle at the truncated (x, y) of every
    keypoint of every pose whose confidence strictly exceeds the
    threshold.  No image bound enters: the keypoint may lie anywhere
    outside the image; only limbs are gated by the bounds. *)
Theorem visible_keypoints_drawn_regardless_of_bounds :
  forall (cv : Backend) (img : image) (pose_result : list (list keypoint))
         (skeleton : option (list (Z * Z))) (thr : Q) (kc : list color)
         (lc : option (list color)) (radius thickness : Z) (w : bool),
    (forall kpts, In kpts pose_result ->
                  length kc = length kpts
                  /\ keypoints_accepted radius kc kpts) ->
    (forall skel l,
        skeleton = Some skel -> lc = Some l ->
        length l = length skel
        /\ limbs_accepted (img_h img) (img_w img) thickness l
        /\ forall kpts sk,
            In kpts pose_result -> In sk skel ->
            joint_in_range (length kpts) (fst sk)
            /\ joint_in_range (length kpts) (snd sk)) ->
    exists st,
      imshow_keypoints cv img pose_result skeleton thr (Some kc) lc
                       radius thickness w = Ok st
      /\ forall kpts j kpt rgb,
          In kpts pose_result ->
          nth_error kpts j = Some kpt -> nth_error kc j = Some rgb ->
          (thr < kscore kpt)%Q ->
          In (Circle (if w then ImgCopy else Img)
                     (py_int (kx kpt), py_int (ky kpt)) radius rgb)
             (calls st).
Proof.
  intros cv img pose_result skeleton thr kc lc radius thickness w Hkc Hlc.
  destruct (imshow_keypoints_total cv img pose_result skeleton thr (Some kc)
              lc radius thickness w) as [st Hrun].
  - intros c kpts Hc Hin. injection Hc as <-. apply (Hkc kpts Hin).
  - intros skel l Hs Hl. destruct (Hlc skel l Hs Hl) as (Hlen & _ & Hrange).
    split; [exact Hlen | exact Hrange].
  - exists st. split; [exact Hrun|].
    unfold imshow_keypoints in Hrun.
    apply pose_loop_circles in Hrun. destruct Hrun as (cs & Hcalls & Hin).
    cbn [calls app] in Hcalls. rewrite Hcalls. exact Hin.
Qed.

(** A keypoint at (-50, 9000), far outside a 4 x 4 image, is drawn. *)
Lemma visible_keypoints_drawn_regardless_of_bounds_witness :
  exists st,
    imshow_keypoints pixel_backend (black 4 4) [[mkKpt (-50) 9000 (9 # 10)]]
                     None (3 # 10) (Some [(0, 0, 255)%Z]) None 4 1 false
    = Ok st
    /\ In (Circle Img (-50, 9000)%Z 4 (0, 0, 255)%Z) (calls st).
Proof.
  destruct (visible_keypoints_drawn_regardless_of_bounds pixel_backend
              (black 4 4) [[mkKpt (-50) 9000 (9 # 10)]] None (3 # 10)
              [(0, 0, 255)%Z] None 4 1 false) as (st & Hrun & Hin).
  - intros kpts [<- | []]. split; [reflexivity|]. accepted.
    intros [|[|j]] kpt rgb Hk Hr; cbn in Hk, Hr; try discriminate.
    injection Hk as <-. injection Hr as <-. cbn. lia.
  - discriminate.
  - exists st. split; [exact Hrun|].
    apply (Hin [mkKpt (-50) 9000 (9 # 10)] 0%nat (mkKpt (-50) 9000 (9 # 10))
               (0, 0, 255)%Z); [left; reflexivity | reflexivity..].
Defined.
